(** * ecsctl: the cluster listing and the task-run follow loop

    A shallow embedding of [cmd/clusters_list.go] and
    [cmd/task_definitions_run.go].  The remote services (ECS, CloudWatch
    Logs) are black boxes: every call is answered from a script of
    responses, which is the only thing the commands can observe of them.
    Standard output is the list of lines printed so far; [os.Exit] and a
    run-time panic end a command with the state reached at that point.

    Pointer-typed fields the code dereferences are [option]s ([None] is
    [nil]); elements of the slices built by the SDK are taken to be
    non-nil.  The 64-bit integers of the code (time stamps, the retry
    counter) are only compared and incremented up to 50, so they are
    integers of [Z] without wrap-around. *)

From Stdlib Require Import ZArith Ascii String Lia.
From stdpp Require Import gmap strings list pretty.

Local Open Scope Z_scope.
Local Open Scope string_scope.

(** ** The Go and AWS SDK helpers the commands call *)

Module GoLib.

(** [aws.StringValue]: the empty string for a nil pointer. *)
Definition StringValue (p : option string) : string :=
  match p with
  | Some s => s
  | None => ""
  end.

(** [aws.Int64Value]: zero for a nil pointer. *)
Definition Int64Value (p : option Z) : Z :=
  match p with
  | Some v => v
  | None => 0
  end.

(** [strings.Split(s, sep)] for a one-byte separator, the only way the
    command calls it ([sep = "/"]): the pieces between the occurrences
    of [sep], of which there is always at least one. *)
Fixpoint Split (s : string) (sep : ascii) : list string :=
  match s with
  | EmptyString => [EmptyString]
  | String c r =>
      if Ascii.eqb c sep then EmptyString :: Split r sep
      else match Split r sep with
           | piece :: pieces => String c piece :: pieces
           | [] => [String c EmptyString]
           end
  end.

(** Number of occurrences of a byte in a string. *)
Fixpoint count_byte (sep : ascii) (s : string) : nat :=
  match s with
  | EmptyString => 0%nat
  | String c r => ((if Ascii.eqb c sep then 1 else 0) + count_byte sep r)%nat
  end.

End GoLib.

(** The wording of the data model, to compare with the code: the
    substring after the last occurrence of [sep]; [None] when [sep] does
    not occur. *)
Fixpoint substring_after_last (sep : ascii) (s : string) : option string :=
  match s with
  | EmptyString => None
  | String c r =>
      match substring_after_last sep r with
      | Some t => Some t
      | None => if Ascii.eqb c sep then Some r else None
      end
  end.

(** ** Outcomes and the command monad *)

(** How a piece of the command ends: it returns a value, it calls
    [os.Exit code], it panics (index out of range, nil dereference,
    write to a nil map), or it is still waiting for the service because
    the script of responses is used up. *)
Inductive outcome (A : Type) : Type :=
| Ret (a : A)
| Exited (code : Z)
| Panicked
| Waiting.

Arguments Ret {A} a.
Arguments Exited {A} code.
Arguments Panicked {A}.
Arguments Waiting {A}.

(** A computation over a state [S]; the state reached is kept also when
    the command exits or panics, so that what was printed before can be
    inspected. *)
Definition M (S A : Type) : Type := S -> outcome A * S.

Definition ret {S A} (a : A) : M S A := fun s => (Ret a, s).

Definition bind {S A B} (m : M S A) (k : A -> M S B) : M S B :=
  fun s =>
    match m s with
    | (Ret a, s') => k a s'
    | (Exited c, s') => (Exited c, s')
    | (Panicked, s') => (Panicked, s')
    | (Waiting, s') => (Waiting, s')
    end.

Definition os_Exit {S A} (code : Z) : M S A := fun s => (Exited code, s).
Definition panic {S A} : M S A := fun s => (Panicked, s).
Definition waiting {S A} : M S A := fun s => (Waiting, s).
Definition get {S} : M S S := fun s => (Ret s, s).
Definition modify {S} (f : S -> S) : M S unit := fun s => (Ret tt, f s).

(** Dereference of a pointer: panics on nil. *)
Definition deref {S A} (p : option A) : M S A :=
  match p with
  | Some a => ret a
  | None => panic
  end.

Declare Scope cmd_scope.
Delimit Scope cmd_scope with cmd.
Notation "x <- c1 ;; c2" := (bind c1 (fun x => c2))
  (at level 100, c1 at next level, right associativity) : cmd_scope.
Notation "c1 ;; c2" := (bind c1 (fun _ => c2))
  (at level 100, right associativity) : cmd_scope.
Local Open Scope cmd_scope.

(** [for _, x := range xs { body x }] *)
Fixpoint for_range {S A} (xs : list A) (body : A -> M S unit) : M S unit :=
  match xs with
  | [] => ret tt
  | x :: rest => body x ;; for_range rest body
  end.

(** ** cmd/clusters_list.go *)

Module ClustersList.

Record ListClustersInput := { in_NextToken : option string }.

Record ListClustersOutput := {
  ClusterArns : list (option string);
  NextToken : option string
}.

(** What [ecsI.ListClusters] returns: [(result, nil)] or [(_, err)]. *)
Inductive response :=
| ListOk (result : ListClustersOutput)
| ListErr (err : string).

Record state := {
  stdout : list string;              (* lines printed, oldest first *)
  requests : list ListClustersInput  (* inputs sent, oldest first *)
}.

Definition init : state := {| stdout := []; requests := [] |}.

Definition Println (line : string) : M state unit :=
  modify (fun st => {| stdout := stdout st ++ [line]; requests := requests st |}).

Definition send (input : ListClustersInput) : M state unit :=
  modify (fun st => {| stdout := stdout st; requests := requests st ++ [input] |}).

(** The [for] loop of [clustersListRun]; [input] and [nextToken] are
    the two locals it carries from one turn to the next, and each turn
    takes the next response of the script. *)
Fixpoint list_loop (script : list response)
         (input : ListClustersInput) (nextToken : option string)
  : M state unit :=
  let input := match nextToken with
               | Some _ => {| in_NextToken := nextToken |}
               | None => input
               end in
  match script with
  | [] => waiting
  | r :: script' =>
      send input ;;
      match r with
      | ListErr err => Println err ;; os_Exit 1
      | ListOk result =>
          for_range (ClusterArns result)
                    (fun f => Println (GoLib.StringValue f)) ;;
          match NextToken result with
          | None => ret tt
          | Some _ => list_loop script' input (NextToken result)
          end
      end
  end.

Definition clustersListRun (script : list response) : M state unit :=
  list_loop script {| in_NextToken := None |} None.

(** *** The shapes of a script *)

(** A successful response that announces a further page: its
    identifiers and its continuation token. *)
Definition more (p : list (option string) * string) : response :=
  ListOk {| ClusterArns := p.1; NextToken := Some p.2 |}.

(** A successful response without continuation token. *)
Definition final (arns : list (option string)) : response :=
  ListOk {| ClusterArns := arns; NextToken := None |}.

(** The lines for the identifiers of some pages, in page order. *)
Definition lines (pages : list (list (option string))) : list string :=
  map GoLib.StringValue (concat pages).

(** The request that follows a response with a token. *)
Definition with_token (p : list (option string) * string) : ListClustersInput :=
  {| in_NextToken := Some p.2 |}.

(** The input a turn of the loop sends. *)
Definition effective (input : ListClustersInput) (nextToken : option string)
  : ListClustersInput :=
  match nextToken with
  | Some _ => {| in_NextToken := nextToken |}
  | None => input
  end.

End ClustersList.

(** ** encoding/json: which payloads decode into a Go map

    [json.Unmarshal(bytes, &jl)] with [jl : map[string]interface{}] first
    checks the whole input against the JSON grammar with the scanner
    below (a push-down automaton fed one byte at a time, as in the
    library's [scanner.go]) and then decodes the top-level value into
    the map.  Only a JSON object fits a map; [null] is accepted and
    leaves the map nil; an array, a string, a number or a boolean is a
    type error.  The nesting-depth limit of recent Go releases is not
    part of the grammar and is left to [decodeObject] below. *)

Module json.

Inductive step_state :=
| stateBeginValueOrEmpty | stateBeginValue
| stateBeginStringOrEmpty | stateBeginString
| stateEndValue | stateEndTop
| stateInString | stateInStringEsc
| stateInStringEscU | stateInStringEscU1
| stateInStringEscU12 | stateInStringEscU123
| stateNeg | state1 | state0 | stateDot | stateDot0
| stateE | stateESign | stateE0
| stateT | stateTr | stateTru
| stateF | stateFa | stateFal | stateFals
| stateN | stateNu | stateNul.

Inductive parse_state := parseObjectKey | parseObjectValue | parseArrayValue.

(** The scanner: the step to take on the next byte and the stack of
    the enclosing objects and arrays, innermost first.  A syntax error
    is [None]: it is never recovered from. *)
Record scanner := {
  step : step_state;
  parseState : list parse_state
}.

Definition goto (st : step_state) (ps : list parse_state) : option scanner :=
  Some {| step := st; parseState := ps |}.

Definition between (lo hi c : ascii) : bool :=
  (N_of_ascii lo <=? N_of_ascii c)%N && (N_of_ascii c <=? N_of_ascii hi)%N.

Definition isSpace (c : ascii) : bool :=
  Ascii.eqb c " " || Ascii.eqb c "009" || Ascii.eqb c "013" || Ascii.eqb c "010".

Definition isDigit (c : ascii) : bool := between "0" "9" c.

Definition isHex (c : ascii) : bool :=
  between "0" "9" c || between "a" "f" c || between "A" "F" c.

Definition popParseState (below : list parse_state) : option scanner :=
  match below with
  | [] => goto stateEndTop []
  | _ :: _ => goto stateEndValue below
  end.

Definition doEndTop (c : ascii) : option scanner :=
  if isSpace c then goto stateEndTop [] else None.

Definition doEndValue (ps : list parse_state) (c : ascii) : option scanner :=
  match ps with
  | [] => doEndTop c
  | top :: below =>
      if isSpace c then goto stateEndValue ps
      else match top with
           | parseObjectKey =>
               if Ascii.eqb c ":" then goto stateBeginValue (parseObjectValue :: below)
               else None
           | parseObjectValue =>
               if Ascii.eqb c "," then goto stateBeginString (parseObjectKey :: below)
               else if Ascii.eqb c "}" then popParseState below
               else None
           | parseArrayValue =>
               if Ascii.eqb c "," then goto stateBeginValue ps
               else if Ascii.eqb c "]" then popParseState below
               else None
           end
  end.

Definition doBeginValue (ps : list parse_state) (c : ascii) : option scanner :=
  if isSpace c then goto stateBeginValue ps
  else if Ascii.eqb c "{" then goto stateBeginStringOrEmpty (parseObjectKey :: ps)
  else if Ascii.eqb c "[" then goto stateBeginValueOrEmpty (parseArrayValue :: ps)
  else if Ascii.eqb c "034" then goto stateInString ps
  else if Ascii.eqb c "-" then goto stateNeg ps
  else if Ascii.eqb c "0" then goto state0 ps
  else if Ascii.eqb c "t" then goto stateT ps
  else if Ascii.eqb c "f" then goto stateF ps
  else if Ascii.eqb c "n" then goto stateN ps
  else if between "1" "9" c then goto state1 ps
  else None.

Definition doBeginString (ps : list parse_state) (c : ascii) : option scanner :=
  if isSpace c then goto stateBeginString ps
  else if Ascii.eqb c "034" then goto stateInString ps
  else None.

Definition do0 (ps : list parse_state) (c : ascii) : option scanner :=
  if Ascii.eqb c "." then goto stateDot ps
  else if Ascii.eqb c "e" || Ascii.eqb c "E" then goto stateE ps
  else doEndValue ps c.

Definition doESign (ps : list parse_state) (c : ascii) : option scanner :=
  if isDigit c then goto stateE0 ps else None.

Definition expect (want : ascii) (next : step_state)
           (ps : list parse_state) (c : ascii) : option scanner :=
  if Ascii.eqb c want then goto next ps else None.

(** One byte through the scanner. *)
Definition scan_byte (s : scanner) (c : ascii) : option scanner :=
  let ps := parseState s in
  match step s with
  | stateBeginValueOrEmpty =>
      if isSpace c then goto stateBeginValueOrEmpty ps
      else if Ascii.eqb c "]" then doEndValue ps c
      else doBeginValue ps c
  | stateBeginValue => doBeginValue ps c
  | stateBeginStringOrEmpty =>
      if isSpace c then goto stateBeginStringOrEmpty ps
      else if Ascii.eqb c "}" then
        match ps with
        | _ :: below => doEndValue (parseObjectValue :: below) c
        | [] => None
        end
      else doBeginString ps c
  | stateBeginString => doBeginString ps c
  | stateEndValue => doEndValue ps c
  | stateEndTop => doEndTop c
  | stateInString =>
      if Ascii.eqb c "034" then goto stateEndValue ps
      else if Ascii.eqb c "\" then goto stateInStringEsc ps
      else if (N_of_ascii c <? 32)%N then None
      else goto stateInString ps
  | stateInStringEsc =>
      if Ascii.eqb c "b" || Ascii.eqb c "f" || Ascii.eqb c "n" || Ascii.eqb c "r"
         || Ascii.eqb c "t" || Ascii.eqb c "\" || Ascii.eqb c "/" || Ascii.eqb c "034"
      then goto stateInString ps
      else if Ascii.eqb c "u" then goto stateInStringEscU ps
      else None
  | stateInStringEscU => if isHex c then goto stateInStringEscU1 ps else None
  | stateInStringEscU1 => if isHex c then goto stateInStringEscU12 ps else None
  | stateInStringEscU12 => if isHex c then goto stateInStringEscU123 ps else None
  | stateInStringEscU123 => if isHex c then goto stateInString ps else None
  | stateNeg =>
      if Ascii.eqb c "0" then goto state0 ps
      else if between "1" "9" c then goto state1 ps
      else None
  | state1 => if isDigit c then goto state1 ps else do0 ps c
  | state0 => do0 ps c
  | stateDot => if isDigit c then goto stateDot0 ps else None
  | stateDot0 =>
      if isDigit c then goto stateDot0 ps
      else if Ascii.eqb c "e" || Ascii.eqb c "E" then goto stateE ps
      else doEndValue ps c
  | stateE =>
      if Ascii.eqb c "+" || Ascii.eqb c "-" then goto stateESign ps
      else doESign ps c
  | stateESign => doESign ps c
  | stateE0 => if isDigit c then goto stateE0 ps else doEndValue ps c
  | stateT => expect "r" stateTr ps c
  | stateTr => expect "u" stateTru ps c
  | stateTru => expect "e" stateEndValue ps c
  | stateF => expect "a" stateFa ps c
  | stateFa => expect "l" stateFal ps c
  | stateFal => expect "s" stateFals ps c
  | stateFals => expect "e" stateEndValue ps c
  | stateN => expect "u" stateNu ps c
  | stateNu => expect "l" stateNul ps c
  | stateNul => expect "l" stateEndValue ps c
  end.

Fixpoint scan (s : scanner) (data : string) : option scanner :=
  match data with
  | EmptyString => Some s
  | String c rest =>
      match scan_byte s c with
      | Some s' => scan s' rest
      | None => None
      end
  end.

Definition reset : scanner := {| step := stateBeginValue; parseState := [] |}.

Definition atEndTop (s : scanner) : bool :=
  match step s with
  | stateEndTop => true
  | _ => false
  end.

(** End of input: fine when the top-level value is complete, or is
    completed by one more space (a number has no closing byte). *)
Definition eof (s : scanner) : bool :=
  atEndTop s ||
  match scan_byte s " " with
  | Some s' => atEndTop s'
  | None => false
  end.

(** [json.Valid]: the input is one JSON value, with optional white
    space around it. *)
Definition Valid (data : string) : bool :=
  match scan reset data with
  | Some s => eof s
  | None => false
  end.

(** The kind of the top-level value, read off its first byte. *)
Inductive kind := Object | Array | StringLit | Number | Bool | Null.

Fixpoint topKind (data : string) : option kind :=
  match data with
  | EmptyString => None
  | String c rest =>
      if isSpace c then topKind rest
      else if Ascii.eqb c "{" then Some Object
      else if Ascii.eqb c "[" then Some Array
      else if Ascii.eqb c "034" then Some StringLit
      else if Ascii.eqb c "n" then Some Null
      else if Ascii.eqb c "t" || Ascii.eqb c "f" then Some Bool
      else Some Number
  end.

End json.

(** ** The libraries behind [printEvent]

    What the terminal shows depends on libraries outside the repository:
    the colours of [fatih/color], the time layout of [time.Format], the
    decoded form of a JSON object and its rendering by [colorjson].  They
    are an interface here; the command is verified for every
    implementation of it. *)

Inductive color_Attribute := FgBlack | FgRed | FgWhite.

Record colorjson_Formatter := {
  Indent : Z;
  RawStrings : bool;
  KeyColor : color_Attribute
}.

(** [colorjson.NewFormatter()], on the fields the command touches. *)
Definition colorjson_NewFormatter : colorjson_Formatter :=
  {| Indent := 0; RawStrings := false; KeyColor := FgWhite |}.

Class Libraries := {
  (** the decoded [map[string]interface{}] *)
  JMap : Type;
  nilMap : JMap;
  (** decoding of an input that is a grammatical JSON object; it can
      still be refused (a number out of the range of [float64], nesting
      too deep) *)
  decodeObject : string -> option JMap;
  (** [formatter.Marshal(jl)] under the given [color.NoColor] *)
  colorjson_Marshal : bool -> colorjson_Formatter -> JMap -> string;
  (** [color.New(attr).SprintFunc()] under the given [color.NoColor] *)
  color_Sprint : bool -> color_Attribute -> string -> string;
  (** [aws.MillisecondsTimeValue(ts).Format(time.RFC3339)] *)
  time_Format_RFC3339 : option Z -> string
}.

(** [json.Unmarshal(data, &jl)] for [jl : map[string]interface{}]:
    [None] is a non-nil [err]. *)
Definition json_Unmarshal `{Libraries} (data : string) : option JMap :=
  if json.Valid data then
    match json.topKind data with
    | Some json.Object => decodeObject data
    | Some json.Null => Some nilMap
    | _ => None
    end
  else None.

(** ** cmd/task_definitions_run.go *)

Module TaskDefinitionsRun.
Import GoLib.

(** *** The SDK's records, on the fields the command reads *)

Record cloudwatchlogs_FilteredLogEvent := {
  EventId : option string;
  LogStreamName : option string;
  Message : option string;
  Timestamp : option Z
}.

Record cloudwatchlogs_FilterLogEventsOutput := {
  Events : list cloudwatchlogs_FilteredLogEvent
}.

Record cloudwatchlogs_FilterLogEventsInput := {
  LogGroupName : option string;
  LogStreamNames : list string;
  StartTime : option Z
}.

(** [Options] is a [map[string]*string]: a lookup gives nil for a
    missing key, which is a lookup in a finite map. *)
Record ecs_LogConfiguration := {
  LogDriver : option string;
  Options : gmap string string
}.

Record ecs_ContainerDefinition := {
  Name : option string;
  LogConfiguration : option ecs_LogConfiguration
}.

Record ecs_TaskDefinition := {
  Revision : option Z;
  ContainerDefinitions : list ecs_ContainerDefinition
}.

Record ecs_Task := {
  TaskArn : option string;
  LastStatus : option string
}.

(** *** The services' answers *)

Inductive describe_task_definition_response :=
| DescribeTaskDefinitionOk (TaskDefinition : option ecs_TaskDefinition)
| DescribeTaskDefinitionErr (err : string).

Inductive run_task_response :=
| RunTaskOk (Tasks : list ecs_Task)
| RunTaskErr (err : string).

(** One call of [FilterLogEventsPages]: the pages the SDK fetched, in
    order, and the error that ended the fetching, if any. *)
Record log_response := {
  pages : list cloudwatchlogs_FilterLogEventsOutput;
  log_err : option string
}.

Inductive describe_tasks_response :=
| DescribeTasksOk (Tasks : list ecs_Task)
| DescribeTasksErr (err : string).

Record script := {
  describeTaskDefinition : describe_task_definition_response;
  runTask : run_task_response;
  polls : list (log_response * describe_tasks_response)
}.

(** The requests sent, as the services see them. *)
Inductive api_call :=
| CallDescribeTaskDefinition (taskDefinition : string)
| CallRunTask (cluster taskDefinition startedBy : string)
| CallFilterLogEventsPages (input : cloudwatchlogs_FilterLogEventsInput)
| CallDescribeTasks (cluster : string) (tasks : list string).

(** *** The command line *)

Record flags := {
  revision : string;
  cluster : string;
  follow : bool;
  exit : bool
}.

Record outputConfiguration := {
  Expand : bool;
  Raw : bool;
  RawString : bool;
  HideStreamName : bool;
  HideDate : bool;
  Invert : bool;
  NoColor : bool
}.

(** *** The state of one run: the locals the closures share, the
    global [color.NoColor], and what the outside has seen. *)

Record state := {
  lastSeenTime : option Z;
  seenEventIDs : option (gmap string bool);   (* [None]: the nil map *)
  cwInput : cloudwatchlogs_FilterLogEventsInput;
  retryCount : Z;
  color_NoColor : bool;
  stdout : list string;                       (* lines printed, oldest first *)
  calls : list api_call                       (* requests sent, oldest first *)
}.

Definition set_lastSeenTime (v : option Z) (st : state) : state :=
  {| lastSeenTime := v; seenEventIDs := seenEventIDs st; cwInput := cwInput st;
     retryCount := retryCount st; color_NoColor := color_NoColor st;
     stdout := stdout st; calls := calls st |}.

Definition set_seenEventIDs (v : option (gmap string bool)) (st : state) : state :=
  {| lastSeenTime := lastSeenTime st; seenEventIDs := v; cwInput := cwInput st;
     retryCount := retryCount st; color_NoColor := color_NoColor st;
     stdout := stdout st; calls := calls st |}.

Definition set_cwInput (v : cloudwatchlogs_FilterLogEventsInput) (st : state) : state :=
  {| lastSeenTime := lastSeenTime st; seenEventIDs := seenEventIDs st; cwInput := v;
     retryCount := retryCount st; color_NoColor := color_NoColor st;
     stdout := stdout st; calls := calls st |}.

Definition set_retryCount (v : Z) (st : state) : state :=
  {| lastSeenTime := lastSeenTime st; seenEventIDs := seenEventIDs st; cwInput := cwInput st;
     retryCount := v; color_NoColor := color_NoColor st;
     stdout := stdout st; calls := calls st |}.

Definition set_color_NoColor (v : bool) (st : state) : state :=
  {| lastSeenTime := lastSeenTime st; seenEventIDs := seenEventIDs st; cwInput := cwInput st;
     retryCount := retryCount st; color_NoColor := v;
     stdout := stdout st; calls := calls st |}.

Definition set_stdout (v : list string) (st : state) : state :=
  {| lastSeenTime := lastSeenTime st; seenEventIDs := seenEventIDs st; cwInput := cwInput st;
     retryCount := retryCount st; color_NoColor := color_NoColor st;
     stdout := v; calls := calls st |}.

Definition set_calls (v : list api_call) (st : state) : state :=
  {| lastSeenTime := lastSeenTime st; seenEventIDs := seenEventIDs st; cwInput := cwInput st;
     retryCount := retryCount st; color_NoColor := color_NoColor st;
     stdout := stdout st; calls := v |}.

(** The state at the start of the command; [noColor] is what the
    colour library found out about the terminal. *)
Definition init (noColor : bool) : state :=
  {| lastSeenTime := None; seenEventIDs := None;
     cwInput := {| LogGroupName := None; LogStreamNames := []; StartTime := None |};
     retryCount := 0; color_NoColor := noColor; stdout := []; calls := [] |}.

(** [fmt.Println] and [fmt.Printf] with a final newline: one more line. *)
Definition Println (line : string) : M state unit :=
  modify (fun st => set_stdout (stdout st ++ [line]) st).

Definition call (c : api_call) : M state unit :=
  modify (fun st => set_calls (calls st ++ [c]) st).

(** *** [outputConfiguration.Formatter] *)

Definition Formatter (c : outputConfiguration) : M state colorjson_Formatter :=
  let formatter := colorjson_NewFormatter in
  let formatter :=
    if Expand c
    then {| Indent := 4; RawStrings := RawStrings formatter; KeyColor := KeyColor formatter |}
    else formatter in
  let formatter :=
    if RawString c
    then {| Indent := Indent formatter; RawStrings := true; KeyColor := KeyColor formatter |}
    else formatter in
  let formatter :=
    if Invert c
    then {| Indent := Indent formatter; RawStrings := RawStrings formatter; KeyColor := FgBlack |}
    else formatter in
  (if NoColor c then modify (set_color_NoColor true) else ret tt) ;;
  ret formatter.

(** *** [printEvent] *)

(** The line both branches print: ["[%s] (%s) %s\n"]. *)
Definition event_line (date stream body : string) : string :=
  "[" +:+ date +:+ "] (" +:+ stream +:+ ") " +:+ body.

Definition printEvent `{Libraries} (formatter : colorjson_Formatter)
           (event : cloudwatchlogs_FilteredLogEvent) : M state unit :=
  st <- get ;;
  let red := color_Sprint (color_NoColor st) FgRed in
  let white := color_Sprint (color_NoColor st) FgWhite in
  let str := StringValue (Message event) in
  let dateStr := time_Format_RFC3339 (Timestamp event) in
  let streamStr := StringValue (LogStreamName event) in
  match json_Unmarshal str with
  | None => Println (event_line (red dateStr) (white streamStr) str)
  | Some jl =>
      let output := colorjson_Marshal (color_NoColor st) formatter jl in
      Println (event_line (red dateStr) (white streamStr) output)
  end.

(** *** The closures of [taskDefinitionsRunRun] *)

Definition clearSeenEventIds : M state unit :=
  modify (set_seenEventIDs (Some ∅)).

(** [seenEventIDs[*id] = true]: panics on a nil [id] and on the nil map. *)
Definition addSeenEventIDs (id : option string) : M state unit :=
  i <- deref id ;;
  st <- get ;;
  match seenEventIDs st with
  | Some m => modify (set_seenEventIDs (Some (<[i := true]> m)))
  | None => panic
  end.

(** [lastSeenTime == nil || *ts > *lastSeenTime]: [ts] is dereferenced
    only when [lastSeenTime] is not nil. *)
Definition updateLastSeenTime (ts : option Z) : M state unit :=
  st <- get ;;
  match lastSeenTime st with
  | None => modify (set_lastSeenTime ts) ;; clearSeenEventIds
  | Some last =>
      t <- deref ts ;;
      if (last <? t)%Z
      then modify (set_lastSeenTime ts) ;; clearSeenEventIds
      else ret tt
  end.

(** [_, seen := seenEventIDs[id]]; reading the nil map finds nothing. *)
Definition seen_in (m : option (gmap string bool)) (id : string) : bool :=
  match m with
  | Some m => match m !! id with Some _ => true | None => false end
  | None => false
  end.

(** The body of the [range] loop of [handlePage]. *)
Definition handleEvent `{Libraries} (formatter : colorjson_Formatter)
           (event : cloudwatchlogs_FilteredLogEvent) : M state unit :=
  updateLastSeenTime (Timestamp event) ;;
  id <- deref (EventId event) ;;
  st <- get ;;
  if negb (seen_in (seenEventIDs st) id)
  then printEvent formatter event ;; addSeenEventIDs (EventId event)
  else ret tt.

Definition handlePage `{Libraries} (formatter : colorjson_Formatter)
           (page : cloudwatchlogs_FilterLogEventsOutput) (lastPage : bool)
  : M state bool :=
  for_range (Events page) (handleEvent formatter) ;;
  ret (negb lastPage).

(** The SDK's paginator: [fn] is called on each page fetched, with
    [lastPage] set on the page after which there is nothing more to
    fetch, and the fetching stops when [fn] returns false; the result
    is the error that ended the fetching, if any. *)
Fixpoint paginate (pages : list cloudwatchlogs_FilterLogEventsOutput)
         (err : option string)
         (fn : cloudwatchlogs_FilterLogEventsOutput -> bool -> M state bool)
  : M state (option string) :=
  match pages with
  | [] => ret err
  | page :: rest =>
      let lastPage :=
        match rest, err with
        | [], None => true
        | _, _ => false
        end in
      continue <- fn page lastPage ;;
      if continue then paginate rest err fn else ret None
  end.

Definition cwlI_FilterLogEventsPages (lr : log_response)
           (fn : cloudwatchlogs_FilterLogEventsOutput -> bool -> M state bool)
  : M state (option string) :=
  st <- get ;;
  call (CallFilterLogEventsPages (cwInput st)) ;;
  paginate (pages lr) (log_err lr) fn.

Definition SetStartTime (v : Z) : M state unit :=
  modify (fun st =>
    set_cwInput {| LogGroupName := LogGroupName (cwInput st);
                   LogStreamNames := LogStreamNames (cwInput st);
                   StartTime := Some v |} st).

(** *** The poll loop *)

Definition retryLimit : Z := 50.

(** Lines 178-186: the log query and the count of its failures. *)
Definition log_query `{Libraries} (formatter : colorjson_Formatter)
           (lr : log_response) : M state unit :=
  err <- cwlI_FilterLogEventsPages lr (handlePage formatter) ;;
  match err with
  | Some e =>
      modify (fun st => set_retryCount (retryCount st + 1) st) ;;
      st <- get ;;
      if (retryLimit <=? retryCount st)%Z
      then Println e ;; os_Exit 1
      else ret tt
  | None => ret tt
  end.

(** Lines 188-190. *)
Definition advance_start : M state unit :=
  st <- get ;;
  match lastSeenTime st with
  | Some t => SetStartTime t
  | None => ret tt
  end.

(** Lines 192-205: the status query; [Tasks[0]] panics when the
    answer lists no task. *)
Definition status_check (cluster taskID : string)
           (sr : describe_tasks_response) : M state unit :=
  call (CallDescribeTasks cluster [taskID]) ;;
  match sr with
  | DescribeTasksErr e => Println e ;; os_Exit 1
  | DescribeTasksOk tasks =>
      match tasks with
      | [] => panic
      | task :: _ =>
          let status := StringValue (LastStatus task) in
          if String.eqb status "STOPPED" then os_Exit 0 else ret tt
      end
  end.

(** One turn of the [for] loop; the one-second sleep that ends it has
    no effect on the state. *)
Definition iteration `{Libraries} (formatter : colorjson_Formatter)
           (cluster taskID : string)
           (poll : log_response * describe_tasks_response) : M state unit :=
  log_query formatter (fst poll) ;;
  advance_start ;;
  status_check cluster taskID (snd poll).

(** The [for] loop: it never returns, it can only exit or panic; when
    the script is used up it is still polling. *)
Fixpoint follow_loop `{Libraries} (formatter : colorjson_Formatter)
         (cluster taskID : string)
         (polls : list (log_response * describe_tasks_response)) : M state unit :=
  match polls with
  | [] => waiting
  | poll :: rest =>
      iteration formatter cluster taskID poll ;;
      follow_loop formatter cluster taskID rest
  end.

(** *** The task ID, lines 125-126: [tSplited[1]] panics when the
    split has a single piece. *)
Definition derive_taskID (taskArn : option string) : M state string :=
  let tSplited := Split (StringValue taskArn) "/" in
  match tSplited !! 1%nat with
  | Some taskID => ret taskID
  | None => panic
  end.

(** Lines 125-162: what the command does, once the task runs and
    [--follow] is set, before it starts to poll; the result is the
    formatter and the task ID the loop works with.  The signal handler
    that [--exit] installs runs beside the command and is not part of
    this model. *)
Definition follow_setup (td : option ecs_TaskDefinition) (tasks : list ecs_Task)
  : M state (colorjson_Formatter * string) :=
  task0 <- deref (tasks !! 0%nat) ;;
  taskID <- derive_taskID (TaskArn task0) ;;
  td <- deref td ;;
  container0 <- deref (ContainerDefinitions td !! 0%nat) ;;
  logConfiguration <- deref (LogConfiguration container0) ;;
  let logDriver := LogDriver logConfiguration in
  if negb (String.eqb (StringValue logDriver) "awslogs") then os_Exit 0
  else
    let logPrefix := Options logConfiguration !! "awslogs-stream-prefix" in
    let logGroup := Options logConfiguration !! "awslogs-group" in
    let cName := Name container0 in
    let logStreamName :=
      StringValue logPrefix +:+ "/" +:+ StringValue cName +:+ "/" +:+ taskID in
    let output := {| Expand := false; Raw := false; RawString := false;
                     HideStreamName := false; HideDate := false;
                     Invert := false; NoColor := false |} in
    formatter <- Formatter output ;;
    modify (set_cwInput {| LogGroupName := logGroup;
                           LogStreamNames := [logStreamName];
                           StartTime := None |}) ;;
    ret (formatter, taskID).

(** Lines 125-208. *)
Definition follow_task `{Libraries} (fl : flags) (td : option ecs_TaskDefinition)
           (tasks : list ecs_Task)
           (polls : list (log_response * describe_tasks_response)) : M state unit :=
  setup <- follow_setup td tasks ;;
  follow_loop (fst setup) (cluster fl) (snd setup) polls.

(** [taskDefinitionsRunRun] with [args[0] = taskDefinitionFamily]. *)
Definition taskDefinitionsRunRun `{Libraries} (fl : flags)
           (taskDefinitionFamily : string) (sc : script) : M state unit :=
  call (CallDescribeTaskDefinition taskDefinitionFamily) ;;
  match describeTaskDefinition sc with
  | DescribeTaskDefinitionErr err => Println err ;; os_Exit 1
  | DescribeTaskDefinitionOk td =>
      revision <-
        (if String.eqb (revision fl) ""
         then d <- deref td ;;
              ret (pretty (Int64Value (Revision d)))
         else ret (revision fl)) ;;
      call (CallRunTask (cluster fl) (taskDefinitionFamily +:+ ":" +:+ revision) "ecsctl") ;;
      match runTask sc with
      | RunTaskErr err => Println err ;; os_Exit 1
      | RunTaskOk tasks =>
          match tasks with
          | [] => Println "task failed to run" ;; os_Exit 1
          | _ :: _ =>
              if negb (follow fl) then os_Exit 0
              else follow_task fl td tasks (polls sc)
          end
      end
  end.

End TaskDefinitionsRun.

(** ** Reading a run of the poll loop

    The vocabulary of the properties below: what a script delivers, how
    many of its log queries fail, and the part of the state the log
    events act on. *)

Module Run.
Import GoLib TaskDefinitionsRun.

Definition poll : Type := log_response * describe_tasks_response.

(** The events of one log query, in the order [handlePage] sees them. *)
Definition events_of (lr : log_response) : list cloudwatchlogs_FilteredLogEvent :=
  concat (map Events (pages lr)).

(** The events of a whole script. *)
Definition delivered (polls : list poll) : list cloudwatchlogs_FilteredLogEvent :=
  concat (map (fun p => events_of (fst p)) polls).

Definition failed (p : poll) : bool :=
  match log_err (fst p) with
  | Some _ => true
  | None => false
  end.

(** Number of failed log queries of a script, consecutive or not. *)
Definition failures (polls : list poll) : Z :=
  Z.of_nat (length (filter (fun p => failed p = true) polls)).

(** Length of the longest run of consecutive failed log queries. *)
Fixpoint failure_runs (polls : list poll) (cur best : nat) : nat :=
  match polls with
  | [] => Nat.max cur best
  | p :: rest =>
      if failed p then failure_runs rest (S cur) best
      else failure_runs rest 0 (Nat.max cur best)
  end.

Definition longest_failure_run (polls : list poll) : nat :=
  failure_runs polls 0 0.

(** The event carries the two fields the loop dereferences. *)
Definition wf_event (e : cloudwatchlogs_FilteredLogEvent) : bool :=
  match Timestamp e, EventId e with
  | Some _, Some _ => true
  | _, _ => false
  end.

(** The status query answers, and the task has not stopped. *)
Definition running (sr : describe_tasks_response) : bool :=
  match sr with
  | DescribeTasksOk (task :: _) =>
      negb (String.eqb (StringValue (LastStatus task)) "STOPPED")
  | _ => false
  end.

(** A script on which only the log queries can end the loop. *)
Definition healthy (polls : list poll) : bool :=
  forallb (fun p => forallb wf_event (events_of (fst p)) && running (snd p)) polls.

(** The loop is about to start (lines 139-140 and 175): no time seen,
    the nil map, no failure counted. *)
Definition loop_start (st : state) : Prop :=
  lastSeenTime st = None /\ seenEventIDs st = None /\ retryCount st = 0.

(** The time stamps present in a list of events. *)
Definition timestamps (es : list cloudwatchlogs_FilteredLogEvent) : list Z :=
  omap Timestamp es.

Fixpoint nondecreasing (ts : list Z) : bool :=
  match ts with
  | t1 :: (t2 :: _) as rest => (t1 <=? t2)%Z && nondecreasing rest
  | _ => true
  end.

(** The maximum of [acc] (if any) and the elements of [ts]. *)
Definition lift_max (acc : option Z) (t : Z) : option Z :=
  match acc with
  | Some m => Some (Z.max m t)
  | None => Some t
  end.

Definition max_from (acc : option Z) (ts : list Z) : option Z :=
  fold_left lift_max ts acc.

(** *** The log tail: the three components the events act on *)

Record tail := {
  t_last : option Z;
  t_seen : option (gmap string bool);
  t_out : list string
}.

Definition tail_of (st : state) : tail :=
  {| t_last := lastSeenTime st; t_seen := seenEventIDs st; t_out := stdout st |}.

(** The nil map is there only as long as no event has been handled. *)
Definition wf_tail (w : tail) : Prop :=
  t_last w <> None -> t_seen w <> None.

(** The line [printEvent] prints for an event. *)
Definition rendering `{Libraries} (noColor : bool) (formatter : colorjson_Formatter)
           (event : cloudwatchlogs_FilteredLogEvent) : string :=
  let red := color_Sprint noColor FgRed in
  let white := color_Sprint noColor FgWhite in
  let str := StringValue (Message event) in
  event_line (red (time_Format_RFC3339 (Timestamp event)))
             (white (StringValue (LogStreamName event)))
             (match json_Unmarshal str with
              | None => str
              | Some jl => colorjson_Marshal noColor formatter jl
              end).

Definition advances (last : option Z) (t : Z) : bool :=
  match last with
  | None => true
  | Some l => (l <? t)%Z
  end.

(** What [handleEvent] does to the tail for an event with a time stamp
    and an identifier. *)
Definition absorb `{Libraries} (noColor : bool) (formatter : colorjson_Formatter)
           (w : tail) (e : cloudwatchlogs_FilteredLogEvent) : tail :=
  match Timestamp e, EventId e with
  | Some t, Some id =>
      let w1 := if advances (t_last w) t
                then {| t_last := Some t; t_seen := Some ∅; t_out := t_out w |}
                else w in
      if seen_in (t_seen w1) id then w1
      else {| t_last := t_last w1;
              t_seen := Some (<[id := true]> (default ∅ (t_seen w1)));
              t_out := t_out w1 ++ [rendering noColor formatter e] |}
  | _, _ => w
  end.

Definition absorb_all `{Libraries} (noColor : bool) (formatter : colorjson_Formatter)
           (w : tail) (es : list cloudwatchlogs_FilteredLogEvent) : tail :=
  fold_left (absorb noColor formatter) es w.

(** The representation invariant of the watermark as the data model
    words it: every identifier of the seen set belongs to an event of
    the history whose time stamp is the watermark. *)
Definition tail_at_watermark (history : list cloudwatchlogs_FilteredLogEvent)
           (w : tail) : Prop :=
  forall id, seen_in (t_seen w) id = true ->
    exists e, In e history /\ EventId e = Some id /\ Timestamp e = t_last w.

Definition seen_at_watermark (history : list cloudwatchlogs_FilteredLogEvent)
           (st : state) : Prop :=
  tail_at_watermark history (tail_of st).

(** The part of the state the log events leave alone. *)
Definition same_frame (st st' : state) : Prop :=
  cwInput st' = cwInput st /\ retryCount st' = retryCount st
  /\ color_NoColor st' = color_NoColor st /\ calls st' = calls st.

(** What makes the follow path panic before it polls: the task ARN
    has no [/], or there is no first container definition, or it has
    no log configuration. *)
Definition setup_fault (d : ecs_TaskDefinition) (task0 : ecs_Task) : Prop :=
  count_byte "/" (StringValue (TaskArn task0)) = 0%nat
  \/ ContainerDefinitions d = []
  \/ exists c cs, ContainerDefinitions d = c :: cs /\ LogConfiguration c = None.

(** *** A plain terminal

    An implementation of the library interface to run the model on
    examples: no colours, the JSON text kept as it is, the time as
    its number of milliseconds. *)
Definition plain : Libraries :=
  {| JMap := string;
     nilMap := "{}";
     decodeObject := Some;
     colorjson_Marshal := fun _ _ m => m;
     color_Sprint := fun _ _ s => s;
     time_Format_RFC3339 := fun ts => match ts with
                                      | Some t => pretty t
                                      | None => ""
                                      end |}.

Definition event (id : string) (ts : Z) (message : string)
  : cloudwatchlogs_FilteredLogEvent :=
  {| EventId := Some id; LogStreamName := Some "web/1"; Message := Some message;
     Timestamp := Some ts |}.

Definition status (s : string) : describe_tasks_response :=
  DescribeTasksOk [{| TaskArn := None; LastStatus := Some s |}].

(** A log query that delivers the events in one page. *)
Definition ok_poll (es : list cloudwatchlogs_FilteredLogEvent) : poll :=
  ({| pages := [{| Events := es |}]; log_err := None |}, status "RUNNING").

(** A log query that fails before any page. *)
Definition failing_poll (err : string) : poll :=
  ({| pages := []; log_err := Some err |}, status "RUNNING").

(** *** Sample runs *)

(** The JSON text [{"level":"info"}]; the double quote is byte 34. *)
Definition quoted (s : string) : string :=
  String "034" (s +:+ String "034" EmptyString).

Definition info_message : string :=
  "{" +:+ quoted "level" +:+ ":" +:+ quoted "info" +:+ "}".

(** Two polls: the second delivers the last event of the first again
    (the query starts at the watermark) and a later one. *)
Definition two_polls : list poll :=
  [ok_poll [event "a" 100 "starting"];
   ok_poll [event "a" 100 "starting"; event "b" 150 info_message]].

(** A log source that delivers an older event after a newer one. *)
Definition out_of_order : list poll :=
  [ok_poll [event "a" 100 "starting"; event "b" 50 "booting"]].

(** 49 failed log queries, a successful one, and one more failure. *)
Definition interrupted_failures : list poll :=
  replicate 49 (failing_poll "timeout") ++ [ok_poll []; failing_poll "timeout"].

(** 50 failed log queries in a row. *)
Definition fifty_failures : list poll :=
  replicate 50 (failing_poll "timeout").

(** The state after an event ["a"] at time 100. *)
Definition seen_a_at_100 : state :=
  set_seenEventIDs (Some {[ "a" := true ]}) (set_lastSeenTime (Some 100) (init true)).

(** A task definition without container definitions, and a script
    that runs it. *)
Definition no_containers : ecs_TaskDefinition :=
  {| Revision := Some 1; ContainerDefinitions := [] |}.

Definition short_arn_task : ecs_Task :=
  {| TaskArn := Some "arn:aws:ecs:us-east-1:123456789012:task/0f9de17a";
     LastStatus := Some "PENDING" |}.

Definition no_containers_script : script :=
  {| describeTaskDefinition := DescribeTaskDefinitionOk (Some no_containers);
     runTask := RunTaskOk [short_arn_task];
     polls := two_polls |}.

Definition follow_flags : flags :=
  {| revision := ""; cluster := "prod"; follow := true; exit := false |}.

End Run.

(** ** Reading a whole run of the command

    More vocabulary, for the properties of the code around the poll
    loop: the requests a run sends, the error messages a script holds,
    and the events a reader of the terminal sees for the first time. *)

Module Coverage.
Import GoLib TaskDefinitionsRun Run.

(** The log query input with another start time. *)
Definition with_start (start : option Z) (inp : cloudwatchlogs_FilterLogEventsInput)
  : cloudwatchlogs_FilterLogEventsInput :=
  {| LogGroupName := LogGroupName inp; LogStreamNames := LogStreamNames inp;
     StartTime := start |}.

(** The requests of the poll loop on a script that keeps it polling: a
    log query and a status query per poll, the log query starting at
    the greatest time stamp seen before it. *)
Fixpoint expected_calls (inp : cloudwatchlogs_FilterLogEventsInput)
         (cluster taskID : string) (last : option Z) (polls : list poll)
  : list api_call :=
  match polls with
  | [] => []
  | p :: rest =>
      CallFilterLogEventsPages (with_start last inp)
      :: CallDescribeTasks cluster [taskID]
      :: expected_calls inp cluster taskID
           (max_from last (timestamps (events_of (fst p)))) rest
  end.

(** The revision [RunTask] is asked for: the flag, or the revision of
    the task definition described when the flag is empty. *)
Definition run_revision (fl : flags) (d : ecs_TaskDefinition) : string :=
  if String.eqb (revision fl) "" then pretty (Int64Value (Revision d))
  else revision fl.

(** The two requests every run sends first. *)
Definition submission (fl : flags) (family revision : string) : list api_call :=
  [CallDescribeTaskDefinition family;
   CallRunTask (cluster fl) (family +:+ ":" +:+ revision) "ecsctl"].

(** The error messages of the polls of a script. *)
Definition poll_errors (polls : list poll) : list string :=
  flat_map (fun p : poll =>
              (match log_err (fst p) with Some e => [e] | None => [] end
               ++ match snd p with DescribeTasksErr e => [e] | _ => [] end)%list) polls.

(** The messages a run can print before it exits with code 1. *)
Definition script_errors (sc : script) : list string :=
  (match describeTaskDefinition sc with DescribeTaskDefinitionErr e => [e] | _ => [] end
   ++ match runTask sc with RunTaskErr e => [e] | _ => [] end
   ++ "task failed to run" :: poll_errors (polls sc))%list.

(** A computation exits with code 0, or with code 1 after printing one
    of the given messages as its last line, and with no other code. *)
Definition exits_with {A : Type} (errs : list string) (m : M state A) : Prop :=
  forall s o s', m s = (o, s') ->
    forall c, o = Exited c ->
      c = 0 \/ (c = 1 /\ exists msg, In msg errs /\ last (stdout s') = Some msg).

(** What identifies an event for the reader: time stamp and identifier. *)
Definition key (e : cloudwatchlogs_FilteredLogEvent) : option Z * option string :=
  (Timestamp e, EventId e).

(** The events whose key occurs neither in [earlier] nor before them in
    the list. *)
Fixpoint first_occurrences (earlier : list (option Z * option string))
         (es : list cloudwatchlogs_FilteredLogEvent)
  : list cloudwatchlogs_FilteredLogEvent :=
  match es with
  | [] => []
  | e :: rest =>
      if bool_decide (key e ∈ earlier) then first_occurrences earlier rest
      else e :: first_occurrences (key e :: earlier) rest
  end.

(** How the keys printed so far relate to the tail when the events
    come in the order of their time stamps: the seen set holds the
    identifiers printed at the watermark, no key is above the
    watermark, and every key has both parts. *)
Definition keys_at_watermark (ks : list (option Z * option string)) (w : tail) : Prop :=
  (forall id, seen_in (t_seen w) id = true <-> (t_last w, Some id) ∈ ks)
  /\ (forall t k, (Some t, k) ∈ ks -> exists l, t_last w = Some l /\ (t <= l)%Z)
  /\ (forall k, k ∈ ks -> exists t id, k = (Some t, Some id)).

(** A task definition whose first container logs to CloudWatch, and a
    task with a long ARN, to run the command on. *)
Definition web_container (driver : string) : ecs_ContainerDefinition :=
  {| Name := Some "web";
     LogConfiguration :=
       Some {| LogDriver := Some driver;
               Options := {[ "awslogs-stream-prefix" := "ecs";
                             "awslogs-group" := "/ecs/api" ]} |} |}.

Definition web_definition (driver : string) : ecs_TaskDefinition :=
  {| Revision := Some 3; ContainerDefinitions := [web_container driver] |}.

Definition long_arn : string :=
  "arn:aws:ecs:us-east-1:123456789012:task/prod/0f9de17a".

Definition web_script (driver : string) (polls : list poll) : script :=
  {| describeTaskDefinition := DescribeTaskDefinitionOk (Some (web_definition driver));
     runTask := RunTaskOk [short_arn_task];
     polls := polls |}.

(** The command line [run api --cluster prod --revision 7]. *)
Definition submit_flags : flags :=
  {| revision := "7"; cluster := "prod"; follow := false; exit := false |}.

(** A script whose [RunTask] fails. *)
Definition run_error_script : script :=
  {| describeTaskDefinition := DescribeTaskDefinitionOk (Some (web_definition "awslogs"));
     runTask := RunTaskErr "ClusterNotFoundException";
     polls := [] |}.

(** An event without time stamp. *)
Definition undated (id : string) (message : string) : cloudwatchlogs_FilteredLogEvent :=
  {| EventId := Some id; LogStreamName := Some "web/1"; Message := Some message;
     Timestamp := None |}.

(** An event without identifier. *)
Definition anonymous (ts : Z) (message : string) : cloudwatchlogs_FilteredLogEvent :=
  {| EventId := None; LogStreamName := Some "web/1"; Message := Some message;
     Timestamp := Some ts |}.

(** A log query that fails after one page. *)
Definition partial_response : log_response :=
  {| pages := [{| Events := [event "c" 200 "stopping"] |}]; log_err := Some "timeout" |}.

End Coverage.

(** * Properties *)

(** ** The cluster listing *)

Section ClustersListFacts.
Import GoLib ClustersList.

Lemma print_arns (arns : list (option string)) (st : state) :
  for_range arns (fun f => Println (StringValue f)) st
  = (Ret tt, {| stdout := stdout st ++ map StringValue arns; requests := requests st |}).
Proof.
  revert st. induction arns as [|a arns IH]; intros [out reqs]; simpl.
  - by rewrite app_nil_r.
  - unfold bind, Println, modify. simpl. rewrite IH. simpl.
    by rewrite <- app_assoc.
Qed.

Lemma list_loop_cons r script input tok :
  list_loop (r :: script) input tok
  = (send (effective input tok) ;;
     match r with
     | ListErr err => Println err ;; os_Exit 1
     | ListOk result =>
         for_range (ClusterArns result) (fun f => Println (StringValue f)) ;;
         match NextToken result with
         | None => ret tt
         | Some _ => list_loop script (effective input tok) (NextToken result)
         end
     end)%cmd.
Proof. reflexivity. Qed.

(** The loop started anywhere, on each of the three shapes of a
    script: pages with tokens up to a page without one, up to an
    error, or up to the end of the script. *)
Lemma list_loop_pages pre : forall input tok st,
  (forall arns rest,
    list_loop (map more pre ++ final arns :: rest) input tok st
    = (Ret tt, {| stdout := stdout st ++ lines (map fst pre ++ [arns]);
                  requests := requests st ++ effective input tok :: map with_token pre |}))
  /\ (forall err rest,
    list_loop (map more pre ++ ListErr err :: rest) input tok st
    = (Exited 1, {| stdout := stdout st ++ lines (map fst pre) ++ [err];
                    requests := requests st ++ effective input tok :: map with_token pre |}))
  /\ (list_loop (map more pre) input tok st
    = (Waiting, {| stdout := stdout st ++ lines (map fst pre);
                   requests := requests st
                     ++ take (length pre) (effective input tok :: map with_token pre) |})).
Proof.
  induction pre as [|[arns0 t0] pre IH]; intros input tok [out reqs].
  - split_and!; intros; simpl; unfold bind, send, modify, Println, os_Exit, waiting; simpl.
    + rewrite print_arns. simpl. unfold lines. simpl. by rewrite app_nil_r.
    + done.
    + by rewrite !app_nil_r.
  - specialize (IH (effective input tok) (Some t0)
                   {| stdout := out ++ map StringValue arns0;
                      requests := reqs ++ [effective input tok] |}).
    destruct IH as (IH1 & IH2 & IH3).
    split_and!; intros; cbn [map app]; rewrite list_loop_cons;
      unfold bind, send, modify; cbn [more ClusterArns NextToken fst snd];
      rewrite print_arns; cbn [stdout requests].
    + rewrite IH1. unfold lines. cbn [stdout requests map fst concat].
      by rewrite !map_app, <- !app_assoc.
    + rewrite IH2. unfold lines. cbn [stdout requests map fst concat].
      by rewrite !map_app, <- !app_assoc.
    + rewrite IH3. unfold lines. cbn [stdout requests map fst concat length].
      by rewrite !map_app, <- !app_assoc.
Qed.

(** Every script has one of the three shapes. *)
Lemma script_shape (script : list response) :
  (exists pre arns rest, script = (map more pre ++ final arns :: rest)%list)
  \/ (exists pre err rest, script = (map more pre ++ ListErr err :: rest)%list)
  \/ (exists pre, script = map more pre).
Proof.
  induction script as [|r script IH].
  - right; right. by exists [].
  - destruct r as [[arns [t|]]|err].
    + destruct IH as [(pre & a & rest & ->)|[(pre & e & rest & ->)|(pre & ->)]].
      * left. by exists ((arns, t) :: pre), a, rest.
      * right; left. by exists ((arns, t) :: pre), e, rest.
      * right; right. by exists ((arns, t) :: pre).
    + left. by exists [], arns, script.
    + right; left. by exists [], err, script.
Qed.

(** C8.  Whatever the service answers, the listing prints the cluster
    identifiers of the pages in page order and nothing else, sends
    each response's continuation token with the next request (the
    first request has none), and returns at the first response without
    a token and not before; a request error ends it at once with exit
    code 1, the error message being the last line printed. *)
Theorem clusters_list_pagination (pre : list (list (option string) * string)) :
  (forall arns rest,
    clustersListRun (map more pre ++ final arns :: rest) init
    = (Ret tt, {| stdout := lines (map fst pre ++ [arns]);
                  requests := {| in_NextToken := None |} :: map with_token pre |}))
  /\ (forall err rest,
    clustersListRun (map more pre ++ ListErr err :: rest) init
    = (Exited 1, {| stdout := lines (map fst pre) ++ [err];
                    requests := {| in_NextToken := None |} :: map with_token pre |}))
  /\ clustersListRun (map more pre) init
     = (Waiting, {| stdout := lines (map fst pre);
                    requests := take (length pre)
                                     ({| in_NextToken := None |} :: map with_token pre) |}).
Proof.
  unfold clustersListRun.
  destruct (list_loop_pages pre {| in_NextToken := None |} None init) as (H1 & H2 & H3).
  split_and!; intros; [rewrite H1 | rewrite H2 | rewrite H3]; done.
Qed.

End ClustersListFacts.

(** ** The task ID and the preconditions of the follow path *)

Section SetupFacts.
Import GoLib TaskDefinitionsRun Run.

Lemma Split_length (s : string) (sep : ascii) :
  length (Split s sep) = S (count_byte sep s).
Proof.
  induction s as [|c s IH]; simpl; [done|].
  destruct (Ascii.eqb c sep); simpl; [by rewrite IH|].
  destruct (Split s sep); simpl in *; lia.
Qed.

Lemma Split_no_sep (s : string) (sep : ascii) :
  count_byte sep s = 0%nat -> Split s sep = [s] /\ substring_after_last sep s = None.
Proof.
  induction s as [|c s IH]; simpl; [done|].
  destruct (Ascii.eqb c sep); simpl; [done|].
  intros H. destruct (IH H) as [-> ->]. done.
Qed.

(** The substring after the last separator is the last piece of the
    split. *)
Lemma Split_last (s : string) (sep : ascii) :
  (0 < count_byte sep s)%nat -> last (Split s sep) = substring_after_last sep s.
Proof.
  induction s as [|c s IH]; simpl; [lia|].
  pose proof (Split_length s sep) as Hl.
  destruct (Ascii.eqb c sep) eqn:Hc; simpl.
  - intros _. destruct (count_byte sep s) as [|n] eqn:Hn.
    + destruct (Split_no_sep s sep Hn) as [-> ->]. reflexivity.
    + rewrite <- IH by lia.
      destruct (Split s sep) as [|p ps] eqn:Hs; [done|].
      change (last ("" :: p :: ps)) with (last (p :: ps)).
      destruct (last (p :: ps)) eqn:Hlast; [done|].
      by apply last_None in Hlast.
  - intros H. rewrite <- IH by done.
    destruct (Split s sep) as [|p [|q ps]] eqn:Hs; simpl in Hl; try lia.
    change (last (String c p :: q :: ps)) with (last (q :: ps)).
    change (last (p :: q :: ps)) with (last (q :: ps)).
    by destruct (last (q :: ps)).
Qed.

(** With exactly one separator, as in
    [arn:aws:ecs:region:account:task/id], the second piece is the
    substring after the last separator. *)
Lemma Split_second_is_last (s : string) (sep : ascii) :
  count_byte sep s = 1%nat -> Split s sep !! 1%nat = substring_after_last sep s.
Proof.
  intros H. rewrite <- Split_last by lia.
  pose proof (Split_length s sep) as Hl. rewrite H in Hl.
  destruct (Split s sep) as [|p [|q [|r ps]]]; simpl in *; try lia; done.
Qed.

Lemma Split_second_none (s : string) (sep : ascii) :
  Split s sep !! 1%nat = None <-> count_byte sep s = 0%nat.
Proof.
  rewrite lookup_ge_None, Split_length. lia.
Qed.

Lemma derive_taskID_one_slash (arn : string) (st : state) :
  count_byte "/" arn = 1%nat ->
  exists id, derive_taskID (Some arn) st = (Ret id, st)
             /\ substring_after_last "/" arn = Some id.
Proof.
  intros H. unfold derive_taskID. simpl.
  rewrite (Split_second_is_last arn "/" H).
  pose proof (Split_second_is_last arn "/" H) as E.
  destruct (substring_after_last "/" arn) as [id|] eqn:Hs.
  - by exists id.
  - apply Split_second_none in E. lia.
Qed.

(** C5.  On a task ARN of the long form
    [arn:aws:ecs:region:account:task/cluster/id] the task ID the
    command derives is the cluster name, not the substring after the
    last [/]; the log stream it follows and the task whose status it
    asks for are named after the cluster. *)
Theorem task_id_of_long_arn :
  let arn := "arn:aws:ecs:us-east-1:123456789012:task/prod/0f9de17a" in
  let td := {| Revision := Some 3;
               ContainerDefinitions :=
                 [{| Name := Some "web";
                     LogConfiguration :=
                       Some {| LogDriver := Some "awslogs";
                               Options := {[ "awslogs-stream-prefix" := "ecs" ]} |} |}] |} in
  let sc := {| describeTaskDefinition := DescribeTaskDefinitionOk (Some td);
               runTask := RunTaskOk [{| TaskArn := Some arn; LastStatus := None |}];
               polls := [ok_poll []] |} in
  let fl := {| revision := ""; cluster := "prod"; follow := true; exit := false |} in
  substring_after_last "/" arn = Some "0f9de17a"
  /\ fst (derive_taskID (Some arn) (init true)) = Ret "prod"
  /\ calls (snd (@taskDefinitionsRunRun plain fl "api" sc (init true)))
     = [CallDescribeTaskDefinition "api";
        CallRunTask "prod" "api:3" "ecsctl";
        CallFilterLogEventsPages {| LogGroupName := None;
                                    LogStreamNames := ["ecs/web/prod"];
                                    StartTime := None |};
        CallDescribeTasks "prod" ["prod"]].
Proof. vm_compute. done. Qed.

Lemma follow_setup_panics (d : ecs_TaskDefinition) (task0 : ecs_Task)
      (rest : list ecs_Task) (st : state) :
  fst (follow_setup (Some d) (task0 :: rest) st) = Panicked <-> setup_fault d task0.
Proof.
  unfold follow_setup, setup_fault, derive_taskID, bind, deref, panic, ret. simpl.
  destruct (Split (StringValue (TaskArn task0)) "/" !! 1%nat) as [taskID|] eqn:Hid.
  - assert (count_byte "/" (StringValue (TaskArn task0)) <> 0%nat) as Hne.
    { intros H0. apply Split_second_none in H0. congruence. }
    destruct (ContainerDefinitions d) as [|c cs]; simpl.
    + naive_solver.
    + destruct (LogConfiguration c) as [lc|] eqn:Hlc; simpl.
      * destruct (negb _); simpl; split; try done;
          intros [?|[?|(c' & cs' & [= <- <-] & ?)]]; congruence.
      * split; [|done]. intros _. right; right. by exists c, cs.
  - apply Split_second_none in Hid. simpl. tauto.
Qed.

(** C10.  Once the task runs and [--follow] is set, the command
    panics, whatever the services answer afterwards, if the task ARN
    has no [/], the task definition has no container definition, or
    its first container definition has no log configuration; and
    these are the only ways for the path to the poll loop to panic. *)
Theorem follow_path_preconditions `{Libraries} (fl : flags) (family : string)
        (sc : script) (d : ecs_TaskDefinition) (task0 : ecs_Task)
        (rest : list ecs_Task) (noColor : bool) :
  describeTaskDefinition sc = DescribeTaskDefinitionOk (Some d) ->
  runTask sc = RunTaskOk (task0 :: rest) ->
  follow fl = true ->
  (setup_fault d task0 ->
   fst (taskDefinitionsRunRun fl family sc (init noColor)) = Panicked)
  /\ (forall st, fst (follow_setup (Some d) (task0 :: rest) st) = Panicked
                 <-> setup_fault d task0).
Proof.
  intros Hd Hr Hf. split; [|intros st; apply follow_setup_panics].
  intros Hfault.
  unfold taskDefinitionsRunRun. rewrite Hd, Hr, Hf.
  unfold bind at 1. unfold call at 1, modify at 1. cbn [negb].
  unfold bind at 1.
  destruct (String.eqb (revision fl) ""); simpl;
    unfold bind at 1; unfold call at 1, modify at 1;
    unfold follow_task; unfold bind at 1;
    match goal with |- context [follow_setup ?a ?b ?s] =>
      pose proof (proj2 (follow_setup_panics d task0 rest s) Hfault) as Hp;
      destruct (follow_setup a b s) as [[]] end; simpl in Hp; done.
Qed.

End SetupFacts.

(** ** The poll loop *)

Local Open Scope list_scope.

Section LoopFacts.
Import GoLib TaskDefinitionsRun Run.
Context `{Libraries}.
Variable formatter : colorjson_Formatter.
Variables cluster taskID : string.

Local Arguments printEvent : simpl never.

Lemma printEvent_eq (e : cloudwatchlogs_FilteredLogEvent) (st : state) :
  printEvent formatter e st
  = (Ret tt, set_stdout (stdout st ++ [rendering (color_NoColor st) formatter e]) st).
Proof.
  unfold printEvent, rendering, bind, get, Println, modify.
  by destruct (json_Unmarshal (StringValue (Message e))).
Qed.

Lemma handleEvent_absorb (e : cloudwatchlogs_FilteredLogEvent) (st : state) :
  wf_event e = true -> wf_tail (tail_of st) ->
  exists st', handleEvent formatter e st = (Ret tt, st')
    /\ tail_of st' = absorb (color_NoColor st) formatter (tail_of st) e
    /\ same_frame st st' /\ wf_tail (tail_of st').
Proof.
  unfold wf_event, wf_tail, handleEvent, absorb, same_frame.
  destruct e as [[id|] stream msg [t|]]; try done. intros _.
  destruct st as [last seen inp rc nc out cs]. simpl.
  unfold updateLastSeenTime, bind, get. simpl.
  destruct last as [l|]; simpl.
  - intros Hwf. destruct seen as [m|]; [|by destruct Hwf].
    destruct (l <? t)%Z; simpl.
    + rewrite lookup_empty. simpl. rewrite printEvent_eq. simpl.
      eexists; split_and!; done.
    + destruct (m !! id) eqn:Hm; simpl.
      * eexists; split_and!; done.
      * rewrite printEvent_eq. simpl. eexists; split_and!; done.
  - intros _. rewrite lookup_empty. simpl. rewrite printEvent_eq. simpl.
    eexists; split_and!; done.
Qed.

Lemma same_frame_refl (st : state) : same_frame st st.
Proof. by unfold same_frame. Qed.

Lemma same_frame_trans (st1 st2 st3 : state) :
  same_frame st1 st2 -> same_frame st2 st3 -> same_frame st1 st3.
Proof. unfold same_frame. intros (-> & -> & -> & ->) (-> & -> & -> & ->). done. Qed.

Lemma absorb_all_app (noColor : bool) (w : tail)
      (es1 es2 : list cloudwatchlogs_FilteredLogEvent) :
  absorb_all noColor formatter w (es1 ++ es2)
  = absorb_all noColor formatter (absorb_all noColor formatter w es1) es2.
Proof. apply fold_left_app. Qed.

Lemma events_absorb (es : list cloudwatchlogs_FilteredLogEvent) : forall st,
  forallb wf_event es = true -> wf_tail (tail_of st) ->
  exists st', for_range es (handleEvent formatter) st = (Ret tt, st')
    /\ tail_of st' = absorb_all (color_NoColor st) formatter (tail_of st) es
    /\ same_frame st st' /\ wf_tail (tail_of st').
Proof.
  induction es as [|e es IH]; intros st Hes Hwf; simpl in *.
  - exists st. split_and!; try done; apply same_frame_refl.
  - apply andb_prop in Hes as [He Hes].
    destruct (handleEvent_absorb e st He Hwf) as (st1 & E1 & T1 & F1 & W1).
    destruct (IH st1 Hes W1) as (st2 & E2 & T2 & F2 & W2).
    exists st2. unfold bind. rewrite E1, E2. split_and!; try done.
    + rewrite T2, T1. by destruct F1 as (_ & _ & -> & _).
    + by eapply same_frame_trans.
Qed.

Lemma paginate_cons (p : cloudwatchlogs_FilterLogEventsOutput)
      (ps : list cloudwatchlogs_FilterLogEventsOutput) (err : option string)
      (fn : cloudwatchlogs_FilterLogEventsOutput -> bool -> M state bool) :
  paginate (p :: ps) err fn
  = (continue <- fn p (match ps, err with [], None => true | _, _ => false end) ;;
     if continue then paginate ps err fn else ret None)%cmd.
Proof. reflexivity. Qed.

Lemma handlePage_eq (p : cloudwatchlogs_FilterLogEventsOutput) (lastPage : bool)
      (st st' : state) :
  for_range (Events p) (handleEvent formatter) st = (Ret tt, st') ->
  handlePage formatter p lastPage st = (Ret (negb lastPage), st').
Proof. intros E. unfold handlePage, bind. by rewrite E. Qed.

Lemma paginate_absorb (ps : list cloudwatchlogs_FilterLogEventsOutput)
      (err : option string) : forall st,
  forallb wf_event (concat (map Events ps)) = true -> wf_tail (tail_of st) ->
  exists st', paginate ps err (handlePage formatter) st = (Ret err, st')
    /\ tail_of st'
       = absorb_all (color_NoColor st) formatter (tail_of st) (concat (map Events ps))
    /\ same_frame st st' /\ wf_tail (tail_of st').
Proof.
  induction ps as [|p ps IH]; intros st Hes Hwf.
  - exists st. split_and!; try done; apply same_frame_refl.
  - cbn [map concat] in *.
    rewrite forallb_app in Hes. apply andb_prop in Hes as [Hp Hes].
    destruct (events_absorb (Events p) st Hp Hwf) as (st1 & E1 & T1 & F1 & W1).
    rewrite paginate_cons. unfold bind at 1.
    rewrite (handlePage_eq p _ st st1 E1).
    rewrite absorb_all_app, <- T1.
    destruct ps as [|q ps].
    + destruct err as [e|]; simpl.
      * exists st1. by split_and!.
      * exists st1. by split_and!.
    + cbn [negb ret].
      destruct (IH st1 Hes W1) as (st2 & E2 & T2 & F2 & W2).
      exists st2. rewrite E2. split_and!; try done.
      * rewrite T2. by destruct F1 as (_ & _ & -> & _).
      * by eapply same_frame_trans.
Qed.

(** The log query of one turn: the events are absorbed, a failure is
    counted, and the count reaching the limit is the only exit. *)
Lemma log_query_spec (lr : log_response) (st : state) :
  forallb wf_event (events_of lr) = true -> wf_tail (tail_of st) ->
  exists st1,
    tail_of st1 = absorb_all (color_NoColor st) formatter (tail_of st) (events_of lr)
    /\ wf_tail (tail_of st1) /\ color_NoColor st1 = color_NoColor st
    /\ match log_err lr with
       | None => log_query formatter lr st = (Ret tt, st1)
                 /\ retryCount st1 = retryCount st
       | Some e =>
           retryCount st1 = retryCount st + 1
           /\ log_query formatter lr st
              = if (retryLimit <=? retryCount st + 1)%Z
                then (Exited 1, set_stdout (stdout st1 ++ [e]) st1)
                else (Ret tt, st1)
       end.
Proof.
  intros Hes Hwf.
  set (st0 := set_calls (calls st ++ [CallFilterLogEventsPages (cwInput st)]) st).
  destruct (paginate_absorb (pages lr) (log_err lr) st0 Hes Hwf)
    as (st1 & E1 & T1 & F1 & W1).
  destruct F1 as (Fi & Fr & Fc & Fs).
  assert (cwlI_FilterLogEventsPages lr (handlePage formatter) st
          = (Ret (log_err lr), st1)) as Eq.
  { unfold cwlI_FilterLogEventsPages, bind, get, call, modify. exact E1. }
  unfold log_query, bind. rewrite Eq.
  destruct (log_err lr) as [e|].
  - exists (set_retryCount (retryCount st1 + 1) st1).
    split_and!; try done.
    + simpl. by rewrite Fr.
    + unfold modify, get. simpl. rewrite Fr. simpl.
      by destruct (retryLimit <=? retryCount st + 1)%Z.
  - exists st1. by split_and!.
Qed.

Lemma advance_start_eq (s : state) :
  exists s', advance_start s = (Ret tt, s')
    /\ tail_of s' = tail_of s /\ retryCount s' = retryCount s
    /\ color_NoColor s' = color_NoColor s.
Proof.
  unfold advance_start, bind, get, SetStartTime, modify.
  destruct (lastSeenTime s); by eexists.
Qed.

Lemma status_check_running (sr : describe_tasks_response) (s : state) :
  running sr = true ->
  status_check cluster taskID sr s
  = (Ret tt, set_calls (calls s ++ [CallDescribeTasks cluster [taskID]]) s).
Proof.
  unfold running, status_check, bind, call, modify.
  destruct sr as [[|task tasks]|]; try done.
  by destruct (String.eqb _ "STOPPED").
Qed.

(** One turn of the loop on a script on which the status query says
    that the task still runs. *)
Lemma iteration_spec (p : poll) (st : state) :
  forallb wf_event (events_of (fst p)) = true -> running (snd p) = true ->
  wf_tail (tail_of st) ->
  let w := absorb_all (color_NoColor st) formatter (tail_of st) (events_of (fst p)) in
  let rc := retryCount st + (if failed p then 1 else 0) in
  exists st1,
    retryCount st1 = rc /\ color_NoColor st1 = color_NoColor st
    /\ if failed p && (retryLimit <=? rc)%Z
       then iteration formatter cluster taskID p st = (Exited 1, st1)
            /\ exists e, log_err (fst p) = Some e /\ stdout st1 = t_out w ++ [e]
       else iteration formatter cluster taskID p st = (Ret tt, st1)
            /\ tail_of st1 = w /\ wf_tail (tail_of st1).
Proof.
  intros Hes Hrun Hwf w rc. subst w rc.
  destruct (log_query_spec (fst p) st Hes Hwf) as (st1 & T1 & W1 & C1 & Hq).
  destruct (advance_start_eq st1) as (st2 & E2 & T2 & R2 & C2).
  pose proof (status_check_running (snd p) st2 Hrun) as E3.
  unfold iteration, failed, bind.
  destruct (log_err (fst p)) as [e|].
  - destruct Hq as (Hrc & ->). cbn [andb].
    destruct (retryLimit <=? retryCount st + 1)%Z.
    + eexists. split_and!; [| |done|]; simpl; try done.
      exists e. by rewrite <- T1.
    + rewrite E2, E3. eexists. split_and!; [| |reflexivity| |].
      * simpl. congruence.
      * simpl. congruence.
      * change (tail_of st2 = absorb_all (color_NoColor st) formatter (tail_of st)
                                         (events_of p.1)). congruence.
      * change (wf_tail (tail_of st2)). by rewrite T2.
  - destruct Hq as (-> & Hrc). cbn [andb]. rewrite E2, E3.
    eexists. rewrite Z.add_0_r. split_and!; [| |reflexivity| |].
    + simpl. congruence.
    + simpl. congruence.
    + change (tail_of st2 = absorb_all (color_NoColor st) formatter (tail_of st)
                                       (events_of p.1)). congruence.
    + change (wf_tail (tail_of st2)). by rewrite T2.
Qed.

Lemma failures_cons (p : poll) (ps : list poll) :
  failures (p :: ps) = ((if failed p then 1 else 0) + failures ps)%Z.
Proof.
  unfold failures. rewrite filter_cons.
  destruct (decide (failed p = true)) as [->|Hp]; simpl length.
  - lia.
  - destruct (failed p); [done|]. lia.
Qed.

Lemma failures_nonneg (ps : list poll) : (0 <= failures ps)%Z.
Proof. unfold failures. lia. Qed.

Lemma healthy_cons (p : poll) (ps : list poll) :
  healthy (p :: ps) = true ->
  forallb wf_event (events_of (fst p)) = true /\ running (snd p) = true
  /\ healthy ps = true.
Proof.
  unfold healthy. cbn [forallb]. intros Hh.
  apply andb_prop in Hh as [Hp Hps]. apply andb_prop in Hp as [He Hr]. done.
Qed.

(** As long as fewer than 50 log queries have failed, the loop keeps
    polling: all events are absorbed and all failures counted. *)
Lemma follow_loop_waiting (polls : list poll) : forall st,
  healthy polls = true -> wf_tail (tail_of st) ->
  (retryCount st + failures polls < retryLimit)%Z ->
  exists st', follow_loop formatter cluster taskID polls st = (Waiting, st')
    /\ tail_of st' = absorb_all (color_NoColor st) formatter (tail_of st) (delivered polls)
    /\ retryCount st' = (retryCount st + failures polls)%Z
    /\ color_NoColor st' = color_NoColor st
    /\ wf_tail (tail_of st').
Proof.
  induction polls as [|p ps IH]; intros st Hh Hwf Hlt.
  - exists st. split_and!; try done. unfold failures. simpl. lia.
  - apply healthy_cons in Hh as (He & Hr & Hh).
    rewrite failures_cons in Hlt. pose proof (failures_nonneg ps) as Hn.
    destruct (iteration_spec p st He Hr Hwf) as (st1 & R1 & C1 & Hit).
    replace (failed p && _) with false in Hit
      by (symmetry; apply andb_false_iff; right; apply Z.leb_gt; lia).
    destruct Hit as (E1 & T1 & W1).
    destruct (IH st1 Hh W1) as (st2 & E2 & T2 & R2 & C2 & W2); [lia|].
    exists st2. cbn [follow_loop]. unfold bind. rewrite E1, E2.
    split_and!; try congruence.
    + rewrite T2, T1, C1. unfold delivered. cbn [map concat].
      by rewrite absorb_all_app.
    + rewrite R2, R1, failures_cons. lia.
    + done.
Qed.

(** The turn in which the count of failed log queries reaches 50 ends
    the command with exit code 1, the error being the last line. *)
Lemma follow_loop_fatal (polls : list poll) : forall st,
  healthy polls = true -> wf_tail (tail_of st) ->
  (retryCount st < retryLimit <= retryCount st + failures polls)%Z ->
  exists st' e, follow_loop formatter cluster taskID polls st = (Exited 1, st')
    /\ retryCount st' = retryLimit
    /\ last (stdout st') = Some e
    /\ In (Some e) (map (fun p : poll => log_err (fst p)) polls).
Proof.
  induction polls as [|p ps IH]; intros st Hh Hwf Hlt.
  - unfold failures in Hlt. simpl in Hlt. lia.
  - apply healthy_cons in Hh as (He & Hr & Hh).
    rewrite failures_cons in Hlt.
    destruct (iteration_spec p st He Hr Hwf) as (st1 & R1 & C1 & Hit).
    cbn [follow_loop]. unfold bind.
    destruct (failed p && _) eqn:Hc.
    + destruct Hit as (E1 & e & Herr & Hout).
      apply andb_prop in Hc as [Hf Hle]. rewrite Hf in R1.
      apply Z.leb_le in Hle.
      exists st1, e. rewrite E1. split_and!; try done.
      * rewrite Hf in Hle. lia.
      * rewrite Hout. apply last_snoc.
      * left. done.
    + destruct Hit as (E1 & T1 & W1). rewrite E1.
      apply andb_false_iff in Hc.
      assert (retryCount st1 < retryLimit)%Z as Hrc.
      { destruct Hc as [Hf|Hle]; [rewrite Hf in *; lia|apply Z.leb_gt in Hle; lia]. }
      destruct (IH st1 Hh W1) as (st2 & e & E2 & R2 & L2 & I2); [lia|].
      exists st2, e. rewrite E2. split_and!; try done. by right.
Qed.

End LoopFacts.

(** ** The watermark *)

Section WatermarkFacts.
Import GoLib TaskDefinitionsRun Run.
Context `{Libraries}.
Variable formatter : colorjson_Formatter.

Lemma timestamps_cons (e : cloudwatchlogs_FilteredLogEvent)
      (es : list cloudwatchlogs_FilteredLogEvent) (t : Z) :
  Timestamp e = Some t -> timestamps (e :: es) = t :: timestamps es.
Proof. unfold timestamps. simpl. by intros ->. Qed.

Lemma wf_event_timestamp (e : cloudwatchlogs_FilteredLogEvent) :
  wf_event e = true -> exists t id, Timestamp e = Some t /\ EventId e = Some id.
Proof.
  unfold wf_event. destruct (Timestamp e) as [t|]; [|done].
  destruct (EventId e) as [id|]; [|done]. by exists t, id.
Qed.

Lemma absorb_last (noColor : bool) (w : tail) (e : cloudwatchlogs_FilteredLogEvent) (t : Z) :
  wf_event e = true -> Timestamp e = Some t ->
  t_last (absorb noColor formatter w e) = lift_max (t_last w) t.
Proof.
  intros Hwf Ht. destruct (wf_event_timestamp e Hwf) as (t' & id & Ht' & Hid).
  unfold absorb. rewrite Ht, Hid.
  destruct (t_last w) as [l|] eqn:Hl; simpl.
  - destruct (Z.ltb_spec l t); simpl.
    + rewrite lookup_empty. simpl. f_equal. lia.
    + destruct (seen_in _ id); simpl; rewrite ?Hl; f_equal; lia.
  - by rewrite lookup_empty.
Qed.

(** The watermark is the maximum of the time stamps absorbed. *)
Lemma absorb_all_last (noColor : bool)
      (es : list cloudwatchlogs_FilteredLogEvent) : forall w,
  forallb wf_event es = true ->
  t_last (absorb_all noColor formatter w es) = max_from (t_last w) (timestamps es).
Proof.
  induction es as [|e es IH]; intros w Hes; [done|].
  cbn [forallb] in Hes. apply andb_prop in Hes as [He Hes].
  destruct (wf_event_timestamp e He) as (t & id & Ht & Hid).
  change (absorb_all noColor formatter w (e :: es))
    with (absorb_all noColor formatter (absorb noColor formatter w e) es).
  rewrite (IH _ Hes), (absorb_last noColor w e t He Ht), (timestamps_cons e es t Ht).
  done.
Qed.

Lemma loop_start_wf (st : state) : loop_start st -> wf_tail (tail_of st).
Proof. intros (Hl & _ & _) Hlast. simpl in Hlast. congruence. Qed.

(** An event that does not move the watermark and whose identifier is
    in the seen set leaves the whole state as it is: nothing is
    printed. *)
Lemma handleEvent_seen (st : state) (e : cloudwatchlogs_FilteredLogEvent)
      (t w : Z) (m : gmap string bool) (id : string) :
  lastSeenTime st = Some w -> seenEventIDs st = Some m ->
  Timestamp e = Some t -> (t <= w)%Z -> EventId e = Some id ->
  is_Some (m !! id) ->
  handleEvent formatter e st = (Ret tt, st).
Proof.
  intros Hw Hm Ht Hle Hid [b Hb].
  unfold handleEvent, updateLastSeenTime, bind, get, deref, ret.
  rewrite Hw, Ht, Hid.
  destruct (Z.ltb_spec w t) as [Hlt|_]; [lia|].
  unfold seen_in. by rewrite Hm, Hb.
Qed.

End WatermarkFacts.

(** ** The seen set *)

Section SeenSetFacts.
Import GoLib TaskDefinitionsRun Run.
Context `{Libraries}.
Variable formatter : colorjson_Formatter.

Lemma wf_event_intro (e : cloudwatchlogs_FilteredLogEvent) (t : Z) (id : string) :
  Timestamp e = Some t -> EventId e = Some id -> wf_event e = true.
Proof. unfold wf_event. by intros -> ->. Qed.

(** What an event above the watermark does to the tail. *)
Lemma absorb_advance (noColor : bool) (w : tail) (e : cloudwatchlogs_FilteredLogEvent)
      (t : Z) (id : string) :
  Timestamp e = Some t -> EventId e = Some id -> advances (t_last w) t = true ->
  absorb noColor formatter w e
  = {| t_last := Some t; t_seen := Some (<[id := true]> ∅);
       t_out := t_out w ++ [rendering noColor formatter e] |}.
Proof.
  intros Ht Hid Hadv. unfold absorb. rewrite Ht, Hid, Hadv. simpl.
  by rewrite lookup_empty.
Qed.

(** What an event whose identifier is not in the seen set does when it
    does not move the watermark. *)
Lemma absorb_fresh (noColor : bool) (w : tail) (e : cloudwatchlogs_FilteredLogEvent)
      (t : Z) (id : string) :
  Timestamp e = Some t -> EventId e = Some id -> advances (t_last w) t = false ->
  seen_in (t_seen w) id = false ->
  absorb noColor formatter w e
  = {| t_last := t_last w; t_seen := Some (<[id := true]> (default ∅ (t_seen w)));
       t_out := t_out w ++ [rendering noColor formatter e] |}.
Proof.
  intros Ht Hid Hadv Hseen. unfold absorb. by rewrite Ht, Hid, Hadv, Hseen.
Qed.

(** C3.  An event strictly above the watermark empties the seen set
    before it is looked up: the event is printed even if its
    identifier was recorded at the old watermark, the seen set then
    holds this identifier only, and a later event that carries another
    identifier of the old set is printed too. *)
Theorem watermark_advance_clears (st : state) (e : cloudwatchlogs_FilteredLogEvent)
        (t w : Z) (m : gmap string bool) (id : string) :
  lastSeenTime st = Some w -> seenEventIDs st = Some m ->
  Timestamp e = Some t -> EventId e = Some id -> (w < t)%Z ->
  updateLastSeenTime (Some t) st
  = (Ret tt, set_seenEventIDs (Some ∅) (set_lastSeenTime (Some t) st))
  /\ exists st',
       handleEvent formatter e st = (Ret tt, st')
       /\ lastSeenTime st' = Some t
       /\ seenEventIDs st' = Some (<[id := true]> ∅)
       /\ stdout st' = stdout st ++ [rendering (color_NoColor st) formatter e]
       /\ forall (e2 : cloudwatchlogs_FilteredLogEvent) (t2 : Z) (id2 : string),
            Timestamp e2 = Some t2 -> EventId e2 = Some id2 -> id2 <> id ->
            exists st'',
              handleEvent formatter e2 st' = (Ret tt, st'')
              /\ stdout st'' = stdout st' ++ [rendering (color_NoColor st) formatter e2].
Proof.
  intros Hw Hm Ht Hid Hlt. split.
  - unfold updateLastSeenTime, bind, get, deref, ret. rewrite Hw.
    by destruct (Z.ltb_spec w t); [|lia].
  - assert (wf_tail (tail_of st)) as Hwf by (intros _; simpl; congruence).
    destruct (handleEvent_absorb formatter e st (wf_event_intro e t id Ht Hid) Hwf)
      as (st' & E & T & F & W).
    assert (advances (t_last (tail_of st)) t = true) as Hadv.
    { simpl. rewrite Hw. simpl. by apply Z.ltb_lt. }
    rewrite (absorb_advance _ _ e t id Ht Hid Hadv) in T.
    exists st'. split_and!; try done.
    + by injection T.
    + by injection T.
    + by injection T.
    + intros e2 t2 id2 Ht2 Hid2 Hne.
      destruct (handleEvent_absorb formatter e2 st' (wf_event_intro e2 t2 id2 Ht2 Hid2) W)
        as (st'' & E2 & T2 & F2 & W2).
      exists st''. split; [done|].
      destruct F as (_ & _ & Fc & _). rewrite Fc in T2.
      change (stdout st'') with (t_out (tail_of st'')). rewrite T2.
      change (stdout st') with (t_out (tail_of st')).
      destruct (advances (t_last (tail_of st')) t2) eqn:Hadv2.
      * by rewrite (absorb_advance _ (tail_of st') e2 t2 id2 Ht2 Hid2 Hadv2).
      * rewrite (absorb_fresh _ (tail_of st') e2 t2 id2 Ht2 Hid2 Hadv2); [done|].
        rewrite T. simpl. by rewrite lookup_insert_ne, lookup_empty.
Qed.

Lemma absorb_seen (noColor : bool) (w : tail) (e : cloudwatchlogs_FilteredLogEvent)
      (t : Z) (id : string) :
  Timestamp e = Some t -> EventId e = Some id -> advances (t_last w) t = false ->
  seen_in (t_seen w) id = true ->
  absorb noColor formatter w e = w.
Proof.
  intros Ht Hid Hadv Hseen. unfold absorb. by rewrite Ht, Hid, Hadv, Hseen.
Qed.

Lemma seen_in_insert (m : option (gmap string bool)) (id id' : string) :
  seen_in (Some (<[id := true]> (default ∅ m))) id' = true ->
  id' = id \/ seen_in m id' = true.
Proof.
  destruct (decide (id' = id)) as [->|Hne]; [by left|right].
  simpl in *. rewrite lookup_insert_ne in * by done.
  destruct m as [m|]; simpl in *; [done|]. by rewrite lookup_empty in *.
Qed.

(** One event that is not below the watermark keeps the seen set at
    the watermark. *)
Lemma absorb_at_watermark (noColor : bool)
      (h : list cloudwatchlogs_FilteredLogEvent) (w : tail)
      (e : cloudwatchlogs_FilteredLogEvent) (t : Z) :
  wf_event e = true -> Timestamp e = Some t ->
  (forall l, t_last w = Some l -> (l <= t)%Z) ->
  tail_at_watermark h w ->
  tail_at_watermark (h ++ [e]) (absorb noColor formatter w e).
Proof.
  intros Hwf Ht Hle Hinv.
  destruct (wf_event_timestamp e Hwf) as (t' & id & Ht' & Hid).
  destruct (advances (t_last w) t) eqn:Hadv.
  - rewrite (absorb_advance noColor w e t id Ht Hid Hadv).
    intros id' Hseen. exists e. cbn [t_last t_seen] in *.
    destruct (seen_in_insert None id id' Hseen) as [->|Hn]; [|done].
    split_and!; try done. apply in_or_app. right. by left.
  - assert (t_last w = Some t) as Hlast.
    { unfold advances in Hadv. destruct (t_last w) as [l|]; [|done].
      specialize (Hle l eq_refl). apply Z.ltb_ge in Hadv. f_equal. lia. }
    destruct (seen_in (t_seen w) id) eqn:Hs.
    + rewrite (absorb_seen noColor w e t id Ht Hid Hadv Hs).
      intros id' Hseen. destruct (Hinv id' Hseen) as (e' & Hin & He').
      exists e'. split; [|done]. apply in_or_app. by left.
    + rewrite (absorb_fresh noColor w e t id Ht Hid Hadv Hs).
      intros id' Hseen. cbn [t_last t_seen] in *.
      destruct (seen_in_insert _ id id' Hseen) as [->|Hold].
      * exists e. split_and!; try congruence. apply in_or_app. right. by left.
      * destruct (Hinv id' Hold) as (e' & Hin & He').
        exists e'. split; [|done]. apply in_or_app. by left.
Qed.

Lemma nondecreasing_cons (t : Z) (ts : list Z) :
  nondecreasing (t :: ts) = true ->
  nondecreasing ts = true /\ forall t', head ts = Some t' -> (t <= t')%Z.
Proof.
  destruct ts as [|t2 ts]; [done|]. cbn [nondecreasing].
  intros Hn. apply andb_prop in Hn as [Hle Hn]. apply Z.leb_le in Hle.
  split; [done|]. by intros t' [= <-].
Qed.

(** Events that arrive in the order of their time stamps, none below
    the watermark, keep the seen set at the watermark. *)
Lemma absorb_all_at_watermark (noColor : bool)
      (es : list cloudwatchlogs_FilteredLogEvent) : forall h w,
  forallb wf_event es = true -> nondecreasing (timestamps es) = true ->
  (forall l t, t_last w = Some l -> head (timestamps es) = Some t -> (l <= t)%Z) ->
  tail_at_watermark h w ->
  tail_at_watermark (h ++ es) (absorb_all noColor formatter w es).
Proof.
  induction es as [|e es IH]; intros h w Hes Hnd Hle Hinv.
  - by rewrite app_nil_r.
  - cbn [forallb] in Hes. apply andb_prop in Hes as [He Hes].
    destruct (wf_event_timestamp e He) as (t & id & Ht & Hid).
    rewrite (timestamps_cons e es t Ht) in Hnd, Hle.
    apply nondecreasing_cons in Hnd as [Hnd Hhead].
    change (absorb_all noColor formatter w (e :: es))
      with (absorb_all noColor formatter (absorb noColor formatter w e) es).
    rewrite (cons_middle e h es), app_assoc.
    apply IH; try done.
    + intros l t' Hl Ht'. rewrite (absorb_last formatter noColor w e t He Ht) in Hl.
      specialize (Hhead t' Ht').
      destruct (t_last w) as [l0|] eqn:Hl0; simpl in Hl.
      * specialize (Hle l0 t eq_refl eq_refl). injection Hl as <-. lia.
      * injection Hl as <-. done.
    + apply (absorb_at_watermark noColor h w e t); try done.
      intros l Hl. by apply (Hle l t).
Qed.

Lemma healthy_delivered (polls : list poll) :
  healthy polls = true -> forallb wf_event (delivered polls) = true.
Proof.
  induction polls as [|p ps IH]; [done|]. intros Hh.
  apply healthy_cons in Hh as (Hp & _ & Hps).
  unfold delivered. cbn [map concat]. rewrite forallb_app, Hp. by apply IH.
Qed.

(** C4, as it holds.  While the log source delivers the events in the
    order of their time stamps, the watermark is the greatest time
    stamp delivered and every identifier of the seen set belongs to a
    delivered event whose time stamp is the watermark. *)
Theorem seen_set_at_watermark (cluster taskID : string) (polls : list poll)
        (st : state) :
  loop_start st -> healthy polls = true -> (failures polls < retryLimit)%Z ->
  nondecreasing (timestamps (delivered polls)) = true ->
  exists st',
    follow_loop formatter cluster taskID polls st = (Waiting, st')
    /\ lastSeenTime st' = max_from None (timestamps (delivered polls))
    /\ seen_at_watermark (delivered polls) st'.
Proof.
  intros Hstart Hh Hlt Hnd.
  pose proof (loop_start_wf st Hstart) as Hwf.
  destruct Hstart as (Hl & Hs & Hrc).
  destruct (follow_loop_waiting formatter cluster taskID polls st Hh Hwf)
    as (st' & E & T & _); [lia|].
  pose proof (healthy_delivered polls Hh) as Hes.
  exists st'. split_and!; [done| |].
  - change (lastSeenTime st') with (t_last (tail_of st')).
    rewrite T, absorb_all_last by done. simpl. by rewrite Hl.
  - unfold seen_at_watermark. rewrite T.
    apply (absorb_all_at_watermark _ (delivered polls) [] (tail_of st)); try done.
    + simpl. rewrite Hl. done.
    + intros id. simpl. rewrite Hs. done.
Qed.

End SeenSetFacts.

(** ** The two kinds of query errors *)

Section RetryFacts.
Import GoLib TaskDefinitionsRun Run.
Context `{Libraries}.
Variable formatter : colorjson_Formatter.
Variables cluster taskID : string.

Lemma failures_app (ps qs : list poll) :
  failures (ps ++ qs) = (failures ps + failures qs)%Z.
Proof.
  induction ps as [|p ps IH]; [unfold failures; simpl; lia|].
  cbn [app]. rewrite !failures_cons, IH. lia.
Qed.

Lemma failures_le_length (ps : list poll) : (failures ps <= Z.of_nat (length ps))%Z.
Proof.
  induction ps as [|p ps IH]; [done|].
  rewrite failures_cons. cbn [length]. destruct (failed p); lia.
Qed.

Lemma failures_all (ps : list poll) :
  forallb failed ps = true -> failures ps = Z.of_nat (length ps).
Proof.
  induction ps as [|p ps IH]; [done|]. cbn [forallb]. intros Hf.
  apply andb_prop in Hf as [Hp Hf]. rewrite failures_cons, Hp, IH by done.
  cbn [length]. lia.
Qed.

Lemma healthy_app (ps qs : list poll) :
  healthy (ps ++ qs) = healthy ps && healthy qs.
Proof. apply forallb_app. Qed.

(** On a healthy script the loop is still polling or has exited with
    code 1, according to the total number of failed log queries. *)
Lemma follow_loop_outcome (polls : list poll) (st : state) :
  loop_start st -> healthy polls = true ->
  fst (follow_loop formatter cluster taskID polls st)
  = if (retryLimit <=? failures polls)%Z then Exited 1 else Waiting.
Proof.
  intros Hstart Hh. pose proof (loop_start_wf st Hstart) as Hwf.
  destruct Hstart as (_ & _ & Hrc).
  destruct (Z.leb_spec retryLimit (failures polls)) as [Hle|Hlt].
  - destruct (follow_loop_fatal formatter cluster taskID polls st Hh Hwf)
      as (st' & e & -> & _); [|done]. rewrite Hrc. unfold retryLimit in *. lia.
  - destruct (follow_loop_waiting formatter cluster taskID polls st Hh Hwf)
      as (st' & -> & _); [|done]. lia.
Qed.

(** C1, as it holds.  On a script on which only the log queries can
    end the loop, the command exits with code 1 exactly when the total
    number of failed log queries, consecutive or not, has reached 50;
    so 50 failures in a row end it, and 49 polls followed by a
    successful log query do not. *)
Theorem retry_ceiling (polls : list poll) (st : state) :
  loop_start st -> healthy polls = true ->
  (fst (follow_loop formatter cluster taskID polls st) = Exited 1
   <-> (retryLimit <= failures polls)%Z)
  /\ (forallb failed polls = true -> length polls = 50%nat ->
      fst (follow_loop formatter cluster taskID polls st) = Exited 1)
  /\ (forall (ps : list poll) (ok : poll),
        polls = ps ++ [ok] -> length ps = 49%nat -> failed ok = false ->
        fst (follow_loop formatter cluster taskID polls st) = Waiting).
Proof.
  intros Hstart Hh. rewrite (follow_loop_outcome polls st Hstart Hh).
  split_and!.
  - destruct (Z.leb_spec retryLimit (failures polls)); split; try done; lia.
  - intros Hall Hlen. rewrite (failures_all polls Hall), Hlen. done.
  - intros ps ok -> Hlen Hok. rewrite failures_app, failures_cons, Hok.
    pose proof (failures_le_length ps) as Hle. rewrite Hlen in Hle.
    destruct (Z.leb_spec retryLimit (failures ps + (0 + failures []))); [|done].
    unfold retryLimit, failures in *. simpl in *. lia.
Qed.

(** C9.  The retry counter is the number of log queries that have
    failed since the loop started, whatever successful queries lie
    between them; when that number reaches 50 the command exits with
    code 1, the error of the 50th failure being the last line. *)
Theorem retry_count_cumulative (polls : list poll) (st : state) :
  loop_start st -> healthy polls = true ->
  ((failures polls < retryLimit)%Z ->
   exists st', follow_loop formatter cluster taskID polls st = (Waiting, st')
               /\ retryCount st' = failures polls)
  /\ ((retryLimit <= failures polls)%Z ->
      exists st' e, follow_loop formatter cluster taskID polls st = (Exited 1, st')
                    /\ retryCount st' = retryLimit
                    /\ last (stdout st') = Some e
                    /\ In (Some e) (map (fun p : poll => log_err (fst p)) polls)).
Proof.
  intros Hstart Hh. pose proof (loop_start_wf st Hstart) as Hwf.
  destruct Hstart as (_ & _ & Hrc). split; intros Hf.
  - destruct (follow_loop_waiting formatter cluster taskID polls st Hh Hwf)
      as (st' & E & _ & R & _); [lia|].
    exists st'. split; [done|]. lia.
  - apply (follow_loop_fatal formatter cluster taskID polls st Hh Hwf).
    rewrite Hrc. unfold retryLimit in *. lia.
Qed.

(** A healthy prefix of a script is passed through. *)
Lemma follow_loop_app (ps qs : list poll) : forall st st',
  healthy ps = true -> wf_tail (tail_of st) ->
  (retryCount st + failures ps < retryLimit)%Z ->
  follow_loop formatter cluster taskID ps st = (Waiting, st') ->
  follow_loop formatter cluster taskID (ps ++ qs) st
  = follow_loop formatter cluster taskID qs st'.
Proof.
  induction ps as [|p ps IH]; intros st st' Hh Hwf Hlt; cbn [follow_loop app].
  - by intros [= ->].
  - apply healthy_cons in Hh as (He & Hr & Hh).
    rewrite failures_cons in Hlt. pose proof (failures_nonneg ps) as Hn.
    destruct (iteration_spec formatter cluster taskID p st He Hr Hwf)
      as (st1 & R1 & C1 & Hit).
    replace (failed p && _) with false in Hit
      by (symmetry; apply andb_false_iff; right; apply Z.leb_gt; lia).
    destruct Hit as (E1 & T1 & W1).
    unfold bind. rewrite E1. apply IH; try done. lia.
Qed.

(** A failing status query ends the turn with exit code 1 unless the
    log query of the same turn has done so before. *)
Lemma iteration_status_error (lr : log_response) (msg : string) (st : state) :
  forallb wf_event (events_of lr) = true -> wf_tail (tail_of st) ->
  (failed (lr, DescribeTasksErr msg) = true -> (retryCount st + 1 < retryLimit)%Z) ->
  exists st', iteration formatter cluster taskID (lr, DescribeTasksErr msg) st
              = (Exited 1, st')
              /\ last (stdout st') = Some msg.
Proof.
  intros Hes Hwf Hlt.
  destruct (log_query_spec formatter lr st Hes Hwf) as (st1 & T1 & W1 & C1 & Hq).
  destruct (advance_start_eq st1) as (st2 & E2 & _).
  assert (log_query formatter lr st = (Ret tt, st1)) as E1.
  { unfold failed in Hlt. cbn [fst] in Hlt.
    destruct (log_err lr) as [e|]; [|by destruct Hq].
    destruct Hq as (_ & ->). specialize (Hlt eq_refl).
    by destruct (Z.leb_spec retryLimit (retryCount st + 1)); [lia|]. }
  unfold iteration, bind. cbn [fst snd]. rewrite E1, E2.
  unfold status_check, bind, call, modify, Println, modify, os_Exit.
  eexists. split; [reflexivity|]. cbn [stdout set_stdout set_calls].
  apply last_snoc.
Qed.

(** C7.  The first status query that fails ends the command with exit
    code 1 in that very turn, its error being the last line printed;
    a log query that fails in the same place, with the status query
    answering, does not end it. *)
Theorem status_error_fatal (polls : list poll) (lr : log_response)
        (msg : string) (rest : list poll) (st : state) :
  loop_start st -> healthy polls = true ->
  forallb wf_event (events_of lr) = true ->
  (failures (polls ++ [(lr, DescribeTasksErr msg)]) < retryLimit)%Z ->
  (exists st',
     follow_loop formatter cluster taskID (polls ++ (lr, DescribeTasksErr msg) :: rest) st
     = (Exited 1, st')
     /\ last (stdout st') = Some msg)
  /\ fst (follow_loop formatter cluster taskID (polls ++ [(lr, status "RUNNING")]) st)
     = Waiting.
Proof.
  intros Hstart Hh Hes Hlt. pose proof (loop_start_wf st Hstart) as Hwf.
  rewrite failures_app, failures_cons in Hlt.
  change (failures []) with 0%Z in Hlt.
  assert (retryCount st + failures polls < retryLimit)%Z as Hpre.
  { destruct Hstart as (_ & _ & ->). destruct (failed _); lia. }
  split.
  - destruct Hstart as (_ & _ & Hrc).
    destruct (follow_loop_waiting formatter cluster taskID polls st Hh Hwf Hpre)
      as (st1 & E1 & T1 & R1 & _ & W1).
    rewrite (follow_loop_app polls _ st st1 Hh Hwf Hpre E1).
    cbn [follow_loop]. unfold bind.
    destruct (iteration_status_error lr msg st1 Hes W1) as (st' & -> & Hlast).
    + intros Hf. rewrite Hf in Hlt. lia.
    + by exists st'.
  - rewrite follow_loop_outcome; [|done|].
    + rewrite failures_app, failures_cons.
      change (failed (lr, status "RUNNING")) with (failed (lr, DescribeTasksErr msg)).
      change (failures []) with 0%Z.
      by destruct (Z.leb_spec retryLimit
                     (failures polls
                      + ((if failed (lr, DescribeTasksErr msg) then 1 else 0) + 0)));
        [lia|].
    + rewrite healthy_app, Hh. unfold healthy. cbn [forallb fst snd].
      by rewrite Hes.
Qed.

End RetryFacts.

(** ** The formatter *)

Section PrintEventFacts.
Import GoLib TaskDefinitionsRun Run.
Context `{Libraries}.

(** A payload that does not pass the scanner, or whose top-level value
    is not an object and not [null], is refused by the decoder. *)
Lemma json_Unmarshal_none (data : string) :
  json.Valid data = false
  \/ (exists k, json.topKind data = Some k /\ k <> json.Object /\ k <> json.Null) ->
  json_Unmarshal data = None.
Proof.
  unfold json_Unmarshal. intros [->|(k & -> & Ho & Hn)]; [done|].
  destruct (json.Valid data); [|done]. by destruct k.
Qed.

Lemma json_Unmarshal_some (data : string) (jl : JMap) :
  json_Unmarshal data = Some jl ->
  json.Valid data = true
  /\ (json.topKind data = Some json.Object \/ json.topKind data = Some json.Null).
Proof.
  unfold json_Unmarshal. destruct (json.Valid data); [|done].
  destruct (json.topKind data) as [[]|]; try done; intros _; split; tauto.
Qed.

(** C6, as it holds.  [printEvent] never fails and prints exactly one
    line, the time and the stream name in front.  The rest of the line
    is the message as it is when decoding it into the map fails, which
    is the case for every message that is not valid JSON and also for
    valid JSON whose top-level value is an array, a string, a number
    or a boolean; it is the output of the structured formatter when
    the decoding succeeds, which takes a JSON object or [null]. *)
Theorem formatter_fallback (formatter : colorjson_Formatter)
        (event : cloudwatchlogs_FilteredLogEvent) (st : state) :
  let str := StringValue (Message event) in
  let date := color_Sprint (color_NoColor st) FgRed
                           (time_Format_RFC3339 (Timestamp event)) in
  let stream := color_Sprint (color_NoColor st) FgWhite
                             (StringValue (LogStreamName event)) in
  (exists body,
     printEvent formatter event st
     = (Ret tt, set_stdout (stdout st ++ [event_line date stream body]) st)
     /\ match json_Unmarshal str with
        | None => body = str
        | Some jl => body = colorjson_Marshal (color_NoColor st) formatter jl
        end)
  /\ (json.Valid str = false -> json_Unmarshal str = None)
  /\ (forall k, json.topKind str = Some k -> k <> json.Object -> k <> json.Null ->
                json_Unmarshal str = None)
  /\ (forall jl, json_Unmarshal str = Some jl ->
                 json.Valid str = true
                 /\ (json.topKind str = Some json.Object
                     \/ json.topKind str = Some json.Null)).
Proof.
  intros str date stream. split_and!.
  - unfold printEvent, bind, get, Println, modify. fold str.
    destruct (json_Unmarshal str) as [jl|]; eexists; split; reflexivity.
  - intros Hv. apply json_Unmarshal_none. by left.
  - intros k Hk Ho Hn. apply json_Unmarshal_none. right. by exists k.
  - apply json_Unmarshal_some.
Qed.

End PrintEventFacts.

(** ** The properties on sample runs *)

Section Samples.
Import GoLib TaskDefinitionsRun Run.

Lemma loop_start_init (noColor : bool) : loop_start (init noColor).
Proof. by repeat split. Qed.

Lemma watermark_advance_clears_witness :
  updateLastSeenTime (Some 150) seen_a_at_100
  = (Ret tt, set_seenEventIDs (Some ∅) (set_lastSeenTime (Some 150) seen_a_at_100))
  /\ exists st',
       @handleEvent plain colorjson_NewFormatter (event "a" 150 "again") seen_a_at_100
       = (Ret tt, st')
       /\ lastSeenTime st' = Some 150
       /\ seenEventIDs st' = Some (<["a" := true]> ∅)
       /\ stdout st' = stdout seen_a_at_100
                       ++ [@rendering plain true colorjson_NewFormatter (event "a" 150 "again")]
       /\ forall (e2 : cloudwatchlogs_FilteredLogEvent) (t2 : Z) (id2 : string),
            Timestamp e2 = Some t2 -> EventId e2 = Some id2 -> id2 <> "a" ->
            exists st'',
              @handleEvent plain colorjson_NewFormatter e2 st' = (Ret tt, st'')
              /\ stdout st'' = stdout st'
                               ++ [@rendering plain true colorjson_NewFormatter e2].
Proof.
  apply (@watermark_advance_clears plain colorjson_NewFormatter seen_a_at_100
           (event "a" 150 "again") 150 100 {[ "a" := true ]} "a").
  - reflexivity.
  - reflexivity.
  - reflexivity.
  - reflexivity.
  - lia.
Defined.

Lemma seen_set_at_watermark_witness :
  exists st',
    @follow_loop plain colorjson_NewFormatter "prod" "0f9de17a" two_polls (init true)
    = (Waiting, st')
    /\ lastSeenTime st' = max_from None (timestamps (delivered two_polls))
    /\ seen_at_watermark (delivered two_polls) st'.
Proof.
  apply (@seen_set_at_watermark plain colorjson_NewFormatter "prod" "0f9de17a"
           two_polls (init true)).
  - apply loop_start_init.
  - reflexivity.
  - reflexivity.
  - reflexivity.
Defined.

(** C4, as it is worded, fails when an older event follows a newer
    one: the identifier ["b"] enters the seen set with the watermark
    at 100, and no delivered event ["b"] has that time stamp. *)
Lemma seen_set_below_watermark :
  let run := @follow_loop plain colorjson_NewFormatter "prod" "0f9de17a"
                          out_of_order (init true) in
  healthy out_of_order = true
  /\ fst run = Waiting
  /\ lastSeenTime (snd run) = Some 100
  /\ seen_in (seenEventIDs (snd run)) "b" = true
  /\ ~ seen_at_watermark (delivered out_of_order) (snd run).
Proof.
  split_and!; try by vm_compute.
  intros Hinv. destruct (Hinv "b") as (e & Hin & Hid & Ht); [by vm_compute|].
  vm_compute in Hin, Ht. destruct Hin as [<-|[<-|[]]]; vm_compute in Hid, Ht; done.
Qed.

Lemma retry_ceiling_witness :
  (fst (@follow_loop plain colorjson_NewFormatter "prod" "0f9de17a"
                     fifty_failures (init true)) = Exited 1
   <-> (retryLimit <= failures fifty_failures)%Z)
  /\ (forallb failed fifty_failures = true -> length fifty_failures = 50%nat ->
      fst (@follow_loop plain colorjson_NewFormatter "prod" "0f9de17a"
                        fifty_failures (init true)) = Exited 1)
  /\ (forall (ps : list poll) (ok : poll),
        fifty_failures = ps ++ [ok] -> length ps = 49%nat -> failed ok = false ->
        fst (@follow_loop plain colorjson_NewFormatter "prod" "0f9de17a"
                          fifty_failures (init true)) = Waiting).
Proof.
  apply (@retry_ceiling plain colorjson_NewFormatter "prod" "0f9de17a"
           fifty_failures (init true)).
  - apply loop_start_init.
  - reflexivity.
Defined.

(** C1, as it is worded, fails: the command exits with code 1 on a
    script whose longest run of consecutive failed log queries has
    length 49. *)
Lemma interrupted_failures_exit :
  healthy interrupted_failures = true
  /\ longest_failure_run interrupted_failures = 49%nat
  /\ failures interrupted_failures = 50
  /\ fst (@follow_loop plain colorjson_NewFormatter "prod" "0f9de17a"
                       interrupted_failures (init true)) = Exited 1.
Proof. by vm_compute. Qed.

Lemma retry_count_cumulative_witness :
  exists st' e,
    @follow_loop plain colorjson_NewFormatter "prod" "0f9de17a"
                 interrupted_failures (init true) = (Exited 1, st')
    /\ retryCount st' = retryLimit
    /\ last (stdout st') = Some e
    /\ In (Some e) (map (fun p : poll => log_err (fst p)) interrupted_failures).
Proof.
  apply (proj2 (@retry_count_cumulative plain colorjson_NewFormatter "prod" "0f9de17a"
                  interrupted_failures (init true) (loop_start_init true) eq_refl)).
  vm_compute. discriminate.
Defined.

Lemma status_error_fatal_witness :
  (exists st',
     @follow_loop plain colorjson_NewFormatter "prod" "0f9de17a"
       ([] ++ ({| pages := []; log_err := Some "timeout" |},
               DescribeTasksErr "AccessDenied") :: two_polls) (init true)
     = (Exited 1, st')
     /\ last (stdout st') = Some "AccessDenied")
  /\ fst (@follow_loop plain colorjson_NewFormatter "prod" "0f9de17a"
            ([] ++ [({| pages := []; log_err := Some "timeout" |}, status "RUNNING")])
            (init true))
     = Waiting.
Proof.
  apply (@status_error_fatal plain colorjson_NewFormatter "prod" "0f9de17a"
           [] {| pages := []; log_err := Some "timeout" |} "AccessDenied"
           two_polls (init true)).
  - apply loop_start_init.
  - reflexivity.
  - reflexivity.
  - reflexivity.
Defined.

Lemma follow_path_preconditions_witness :
  fst (@taskDefinitionsRunRun plain follow_flags "api" no_containers_script (init true))
  = Panicked.
Proof.
  apply (proj1 (@follow_path_preconditions plain follow_flags "api" no_containers_script
                  no_containers short_arn_task [] true eq_refl eq_refl eq_refl)).
  right. left. reflexivity.
Defined.

(** The scenario of two polls: the event ["a"] that comes again is
    printed once, the event ["b"] once, and the watermark ends at 150. *)
Example two_polls_scenario :
  let run := @follow_loop plain colorjson_NewFormatter "prod" "0f9de17a"
                          two_polls (init true) in
  fst run = Waiting
  /\ stdout (snd run) = ["[100] (web/1) starting"; "[150] (web/1) " +:+ info_message]
  /\ lastSeenTime (snd run) = Some 150
  /\ StartTime (cwInput (snd run)) = Some 150.
Proof. by vm_compute. Qed.

(** C6, as it is worded, fails on a message that is valid JSON but
    not an object: the number [42] is refused by the decoder and
    printed as it is, not through the structured formatter. *)
Lemma valid_json_printed_raw :
  json.Valid "42" = true
  /\ @json_Unmarshal plain "42" = None
  /\ stdout (snd (@printEvent plain colorjson_NewFormatter
                              (event "a" 100 "42") (init true)))
     = ["[100] (web/1) 42"]
  /\ json.Valid "[1,2]" = true
  /\ @json_Unmarshal plain "[1,2]" = None.
Proof. by vm_compute. Qed.

Lemma formatter_fallback_witness :
  json.Valid info_message = true
  /\ exists body,
       @printEvent plain colorjson_NewFormatter
                   (event "b" 150 info_message) (init true)
       = (Ret tt, set_stdout [event_line "150" "web/1" body] (init true))
       /\ body = @colorjson_Marshal plain true colorjson_NewFormatter
                                    info_message.
Proof.
  split; [reflexivity|].
  destruct (@formatter_fallback plain colorjson_NewFormatter
              (event "b" 150 info_message) (init true))
    as ((body & E & Hbody) & _).
  exists body. split; [exact E|exact Hbody].
Defined.

End Samples.

(** ** The scanner on sample inputs *)

Section ScannerSamples.
Import Run.

Example json_Valid_accepts :
  map json.Valid
      ["{}"; "[]"; " [1, 2.5e-3, true, null, {}] "; "-0.5E+10"; "null";
       info_message; quoted "a\nb"; quoted "é"]
  = [true; true; true; true; true; true; true; true].
Proof. reflexivity. Qed.

Example json_Valid_rejects :
  map json.Valid
      [""; "hello"; "01"; "1."; "[1,]"; "{,}"; "tru"; "1 2"; "{}}";
       quoted "a\qb"; quoted "\u00g9"; String "034" "open"]
  = [false; false; false; false; false; false; false; false; false;
     false; false; false].
Proof. reflexivity. Qed.

Example json_topKind_samples :
  map json.topKind ["{}"; " [1]"; "42"; "-1"; "true"; "false"; "null"; quoted "x"]
  = [Some json.Object; Some json.Array; Some json.Number; Some json.Number;
     Some json.Bool; Some json.Bool; Some json.Null; Some json.StringLit].
Proof. reflexivity. Qed.

End ScannerSamples.

(** * Further properties of the code *)

(** ** Before the poll loop *)

Section SubmissionFacts.
Import GoLib TaskDefinitionsRun Run Coverage.
Context `{Libraries}.

(** X1.  [Formatter] never fails; the formatter it returns has indent 4
    exactly when [Expand] is set, raw strings exactly when [RawString]
    is set and black keys exactly when [Invert] is set, whatever [Raw],
    [HideStreamName] and [HideDate] are; the only thing it changes is
    the global [color.NoColor], which it sets when [NoColor] is set and
    never clears. *)
Theorem formatter_of_configuration (c : outputConfiguration) (st : state) :
  Formatter c st
  = (Ret {| Indent := if Expand c then 4 else 0;
            RawStrings := RawString c;
            KeyColor := if Invert c then FgBlack else FgWhite |},
     if NoColor c then set_color_NoColor true st else st).
Proof. destruct c as [[] ? [] ? ? [] []]; reflexivity. Qed.

(** The run up to the answer of [RunTask], when the task definition is
    described. *)
Lemma run_submitted (fl : flags) (family : string) (sc : script)
      (d : ecs_TaskDefinition) (st : state) :
  describeTaskDefinition sc = DescribeTaskDefinitionOk (Some d) ->
  taskDefinitionsRunRun fl family sc st
  = (match runTask sc with
     | RunTaskErr err => Println err ;; os_Exit 1
     | RunTaskOk tasks =>
         match tasks with
         | [] => Println "task failed to run" ;; os_Exit 1
         | _ :: _ =>
             if negb (follow fl) then os_Exit 0
             else follow_task fl (Some d) tasks (polls sc)
         end
     end)%cmd (set_calls (calls st ++ submission fl family (run_revision fl d)) st).
Proof.
  intros Hd. unfold taskDefinitionsRunRun, run_revision, submission. rewrite Hd.
  unfold bind at 1. unfold call at 1, modify at 1. unfold bind at 1.
  destruct (String.eqb (revision fl) ""); cbn [deref ret bind];
    unfold bind at 1; unfold call at 1, modify at 1;
    cbn [calls set_calls]; rewrite <- app_assoc; reflexivity.
Qed.

(** X2.  The command fails fast: an error of [DescribeTaskDefinition]
    ends it with exit code 1 and the error printed before [RunTask] is
    ever called; an error of [RunTask], or an answer without tasks,
    ends it with exit code 1 and the error, or [task failed to run],
    printed; in no case is a log or status query sent. *)
Theorem submission_fails_fast (fl : flags) (family : string) (sc : script)
        (st : state) :
  (forall err, describeTaskDefinition sc = DescribeTaskDefinitionErr err ->
     taskDefinitionsRunRun fl family sc st
     = (Exited 1, set_stdout (stdout st ++ [err])
                    (set_calls (calls st ++ [CallDescribeTaskDefinition family]) st)))
  /\ (forall d err,
        describeTaskDefinition sc = DescribeTaskDefinitionOk (Some d) ->
        runTask sc = RunTaskErr err ->
        taskDefinitionsRunRun fl family sc st
        = (Exited 1, set_stdout (stdout st ++ [err])
                       (set_calls (calls st ++ submission fl family (run_revision fl d)) st)))
  /\ (forall d,
        describeTaskDefinition sc = DescribeTaskDefinitionOk (Some d) ->
        runTask sc = RunTaskOk [] ->
        taskDefinitionsRunRun fl family sc st
        = (Exited 1, set_stdout (stdout st ++ ["task failed to run"])
                       (set_calls (calls st ++ submission fl family (run_revision fl d)) st))).
Proof.
  split_and!.
  - intros err Hd. unfold taskDefinitionsRunRun. by rewrite Hd.
  - intros d err Hd Hr. rewrite (run_submitted fl family sc d st Hd), Hr. reflexivity.
  - intros d Hd Hr. rewrite (run_submitted fl family sc d st Hd), Hr. reflexivity.
Qed.

(** X3.  Without [--follow] a task that runs ends the command with exit
    code 0: nothing is printed, and the only requests sent are the
    description of the family and the run of [family:revision], the
    revision being the flag, or the decimal revision of the described
    task definition when the flag is empty. *)
Theorem run_without_follow (fl : flags) (family : string) (sc : script)
        (d : ecs_TaskDefinition) (task0 : ecs_Task) (rest : list ecs_Task)
        (st : state) :
  describeTaskDefinition sc = DescribeTaskDefinitionOk (Some d) ->
  runTask sc = RunTaskOk (task0 :: rest) ->
  follow fl = false ->
  taskDefinitionsRunRun fl family sc st
  = (Exited 0,
     set_calls (calls st
                ++ [CallDescribeTaskDefinition family;
                    CallRunTask (cluster fl)
                      (family +:+ ":"
                       +:+ (if String.eqb (revision fl) ""
                            then pretty (Int64Value (Revision d))
                            else revision fl))
                      "ecsctl"]) st).
Proof.
  intros Hd Hr Hf. rewrite (run_submitted fl family sc d st Hd), Hr, Hf. reflexivity.
Qed.

End SubmissionFacts.

Section FollowSetupFacts.
Import GoLib TaskDefinitionsRun Run Coverage.
Context `{Libraries}.

(** The first piece of a split and what follows it. *)
Lemma Split_first (s : string) (sep : ascii) :
  exists pre pieces,
    Split s sep = pre :: pieces /\ count_byte sep pre = 0%nat
    /\ ((s = pre /\ pieces = [])
        \/ exists r, s = pre +:+ String sep r /\ pieces = Split r sep).
Proof.
  induction s as [|c s IH].
  - exists "", []. split_and!; try done. by left.
  - cbn [Split]. destruct (Ascii.eqb_spec c sep) as [->|Hne].
    + exists "", (Split s sep). split_and!; try done. right. by exists s.
    + destruct IH as (pre & pieces & -> & Hpre & Hs).
      exists (String c pre), pieces. split_and!; try done.
      * cbn [count_byte]. rewrite Hpre.
        by destruct (Ascii.eqb_spec c sep).
      * destruct Hs as [[-> ->]|(r & -> & ->)]; [by left|right]. by exists r.
Qed.

Lemma append_empty (s : string) : s +:+ "" = s.
Proof.
  induction s as [|c s IH]; [done|].
  change (String c (s +:+ "") = String c s). by rewrite IH.
Qed.

(** X6.  The task ID the command derives from an ARN with a [/] is the
    text between the first [/] and the next one, or the end of the ARN:
    the ARN reads [pre/id] followed by nothing or by [/...], with no
    [/] in [pre] and [id]. *)
Theorem task_id_is_second_piece (arn : string) (st : state) :
  (0 < count_byte "/" arn)%nat ->
  exists pre id rest,
    arn = pre +:+ "/" +:+ id +:+ rest
    /\ count_byte "/" pre = 0%nat /\ count_byte "/" id = 0%nat
    /\ (rest = "" \/ exists r, rest = "/" +:+ r)
    /\ derive_taskID (Some arn) st = (Ret id, st).
Proof.
  intros Hpos. unfold derive_taskID. cbn [StringValue].
  destruct (Split_first arn "/") as (pre & pieces & Hsplit & Hpre & Hs).
  destruct Hs as [[-> ->]|(r & -> & ->)]; [lia|].
  destruct (Split_first r "/") as (id & pieces & Hsplit2 & Hid & Hs).
  rewrite Hsplit, Hsplit2. cbn [lookup list_lookup].
  exists pre, id.
  destruct Hs as [[-> ->]|(r' & -> & ->)].
  - exists "". split_and!; try done; [|by left].
    by rewrite append_empty.
  - exists ("/" +:+ r'). split_and!; try done. right. by exists r'.
Qed.

(** The run of the command with [--follow] once the task runs. *)
Lemma run_followed (fl : flags) (family : string) (sc : script)
      (d : ecs_TaskDefinition) (task0 : ecs_Task) (rest : list ecs_Task)
      (st : state) :
  describeTaskDefinition sc = DescribeTaskDefinitionOk (Some d) ->
  runTask sc = RunTaskOk (task0 :: rest) ->
  follow fl = true ->
  taskDefinitionsRunRun fl family sc st
  = follow_task fl (Some d) (task0 :: rest) (polls sc)
      (set_calls (calls st ++ submission fl family (run_revision fl d)) st).
Proof.
  intros Hd Hr Hf. rewrite (run_submitted fl family sc d st Hd), Hr, Hf. reflexivity.
Qed.

(** X4.  When the first container does not log with the [awslogs]
    driver (or names no driver), the command with [--follow] exits with
    code 0 once the task runs: nothing is printed and no log or status
    query is sent, whatever the services would answer. *)
Theorem other_log_driver_exits (fl : flags) (family : string) (sc : script)
        (d : ecs_TaskDefinition) (task0 : ecs_Task) (rest : list ecs_Task)
        (c0 : ecs_ContainerDefinition) (cs : list ecs_ContainerDefinition)
        (lc : ecs_LogConfiguration) (st : state) :
  describeTaskDefinition sc = DescribeTaskDefinitionOk (Some d) ->
  runTask sc = RunTaskOk (task0 :: rest) ->
  follow fl = true ->
  (0 < count_byte "/" (StringValue (TaskArn task0)))%nat ->
  ContainerDefinitions d = c0 :: cs -> LogConfiguration c0 = Some lc ->
  StringValue (LogDriver lc) <> "awslogs" ->
  taskDefinitionsRunRun fl family sc st
  = (Exited 0, set_calls (calls st ++ submission fl family (run_revision fl d)) st).
Proof.
  intros Hd Hr Hf Harn Hc Hlc Hdrv.
  rewrite (run_followed fl family sc d task0 rest st Hd Hr Hf).
  destruct (task_id_is_second_piece (StringValue (TaskArn task0))
              (set_calls (calls st ++ submission fl family (run_revision fl d)) st) Harn)
    as (pre & id & more & _ & _ & _ & _ & Hid).
  unfold follow_task, follow_setup. unfold bind at 1. unfold bind at 1.
  cbn [lookup list_lookup deref ret]. unfold bind at 1.
  change (derive_taskID (TaskArn task0)) with (derive_taskID (Some (StringValue (TaskArn task0)))).
  rewrite Hid. unfold bind at 1. cbn [deref ret]. rewrite Hc.
  unfold bind at 1. cbn [lookup list_lookup deref ret]. rewrite Hlc.
  unfold bind at 1. cbn [deref ret].
  apply String.eqb_neq in Hdrv. rewrite Hdrv. reflexivity.
Qed.

(** X5.  When the first container logs with [awslogs], the command with
    [--follow] goes on, once the task runs, as the poll loop with
    colorjson's default formatter, the cluster of the flag and the task
    ID derived from the ARN; the loop starts with no time seen, no
    failure counted and an unbounded log query for the single stream
    [prefix/container/taskID] of the log group of the options.  An
    option that is missing gives an empty prefix, or no log group. *)
Theorem follow_enters_loop (fl : flags) (family : string) (sc : script)
        (d : ecs_TaskDefinition) (task0 : ecs_Task) (rest : list ecs_Task)
        (c0 : ecs_ContainerDefinition) (cs : list ecs_ContainerDefinition)
        (lc : ecs_LogConfiguration) (id : string) (noColor : bool) :
  describeTaskDefinition sc = DescribeTaskDefinitionOk (Some d) ->
  runTask sc = RunTaskOk (task0 :: rest) ->
  follow fl = true ->
  Split (StringValue (TaskArn task0)) "/" !! 1%nat = Some id ->
  ContainerDefinitions d = c0 :: cs -> LogConfiguration c0 = Some lc ->
  StringValue (LogDriver lc) = "awslogs" ->
  let entry :=
    set_cwInput
      {| LogGroupName := Options lc !! "awslogs-group";
         LogStreamNames :=
           [StringValue (Options lc !! "awslogs-stream-prefix")
            +:+ "/" +:+ StringValue (Name c0) +:+ "/" +:+ id];
         StartTime := None |}
      (set_calls (submission fl family (run_revision fl d)) (init noColor)) in
  taskDefinitionsRunRun fl family sc (init noColor)
  = follow_loop colorjson_NewFormatter (cluster fl) id (polls sc) entry
  /\ loop_start entry.
Proof.
  intros Hd Hr Hf Hid Hc Hlc Hdrv entry. split; [|by repeat split].
  rewrite (run_followed fl family sc d task0 rest (init noColor) Hd Hr Hf).
  unfold follow_task, follow_setup, derive_taskID. unfold bind at 1. unfold bind at 1.
  cbn [lookup list_lookup deref ret]. unfold bind at 1.
  change (StringValue (TaskArn task0)) with (StringValue (TaskArn task0)) in Hid.
  rewrite Hid. cbn [ret]. unfold bind at 1. cbn [deref ret]. rewrite Hc.
  unfold bind at 1. cbn [lookup list_lookup deref ret]. rewrite Hlc.
  unfold bind at 1. cbn [deref ret].
  rewrite Hdrv. reflexivity.
Qed.

End FollowSetupFacts.

(** ** The turns of the poll loop *)

Section TurnFacts.
Import GoLib TaskDefinitionsRun Run Coverage.
Context `{Libraries}.
Variable formatter : colorjson_Formatter.
Variables cluster taskID : string.

(** The log query of a turn with everything it changes: the request is
    recorded with the input as it stands, the events are absorbed, the
    failure counted. *)
Lemma log_query_trace (lr : log_response) (st : state) :
  forallb wf_event (events_of lr) = true -> wf_tail (tail_of st) ->
  (log_err lr <> None -> (retryCount st + 1 < retryLimit)%Z) ->
  exists st1,
    log_query formatter lr st = (Ret tt, st1)
    /\ tail_of st1 = absorb_all (color_NoColor st) formatter (tail_of st) (events_of lr)
    /\ wf_tail (tail_of st1)
    /\ color_NoColor st1 = color_NoColor st
    /\ cwInput st1 = cwInput st
    /\ calls st1 = calls st ++ [CallFilterLogEventsPages (cwInput st)]
    /\ retryCount st1
       = (retryCount st + match log_err lr with Some _ => 1 | None => 0 end)%Z.
Proof.
  intros Hes Hwf Hlt.
  set (st0 := set_calls (calls st ++ [CallFilterLogEventsPages (cwInput st)]) st).
  destruct (paginate_absorb formatter (pages lr) (log_err lr) st0 Hes Hwf)
    as (st1 & E1 & T1 & F1 & W1).
  destruct F1 as (Fi & Fr & Fc & Fs).
  assert (cwlI_FilterLogEventsPages lr (handlePage formatter) st
          = (Ret (log_err lr), st1)) as Eq.
  { unfold cwlI_FilterLogEventsPages, bind, get, call, modify. exact E1. }
  unfold log_query, bind. rewrite Eq.
  destruct (log_err lr) as [e|].
  - exists (set_retryCount (retryCount st1 + 1) st1).
    unfold modify, get. cbn [retryCount set_retryCount]. rewrite Fr.
    cbn [retryCount set_calls st0].
    destruct (Z.leb_spec retryLimit (retryCount st + 1)) as [Hle|_].
    + specialize (Hlt ltac:(done)). lia.
    + split_and!; try done.
  - exists st1. split_and!; try done. rewrite Fr. cbn. lia.
Qed.

(** A turn whose log query does not end the command comes to its
    status query with the events of the turn absorbed and the next log
    query set to start at the watermark. *)
Lemma iteration_to_status (lr : log_response) (sr : describe_tasks_response)
      (st : state) :
  forallb wf_event (events_of lr) = true -> wf_tail (tail_of st) ->
  (log_err lr <> None -> (retryCount st + 1 < retryLimit)%Z) ->
  exists st2,
    iteration formatter cluster taskID (lr, sr) st = status_check cluster taskID sr st2
    /\ tail_of st2 = absorb_all (color_NoColor st) formatter (tail_of st) (events_of lr)
    /\ wf_tail (tail_of st2)
    /\ color_NoColor st2 = color_NoColor st
    /\ cwInput st2 = match lastSeenTime st2 with
                     | Some t => with_start (Some t) (cwInput st)
                     | None => cwInput st
                     end
    /\ calls st2 = calls st ++ [CallFilterLogEventsPages (cwInput st)]
    /\ retryCount st2
       = (retryCount st + match log_err lr with Some _ => 1 | None => 0 end)%Z.
Proof.
  intros Hes Hwf Hlt.
  destruct (log_query_trace lr st Hes Hwf Hlt) as (st1 & E1 & T1 & W1 & C1 & I1 & K1 & R1).
  unfold iteration, bind. cbn [fst snd]. rewrite E1.
  unfold advance_start, bind, get, SetStartTime, modify.
  destruct (lastSeenTime st1) as [t|] eqn:Hl.
  - eexists. split; [reflexivity|]. cbn. rewrite Hl, I1.
    split_and!; done.
  - exists st1. cbn [ret]. rewrite Hl. split_and!; done.
Qed.

Lemma max_from_some (w : Z) (ts : list Z) : max_from (Some w) ts <> None.
Proof.
  revert w. induction ts as [|t ts IH]; intros w; [done|].
  unfold max_from. cbn [fold_left lift_max]. apply IH.
Qed.

Lemma timestamps_app (es1 es2 : list cloudwatchlogs_FilteredLogEvent) :
  timestamps (es1 ++ es2) = timestamps es1 ++ timestamps es2.
Proof. unfold timestamps. apply omap_app. Qed.

Lemma max_from_app (last : option Z) (ts1 ts2 : list Z) :
  max_from last (ts1 ++ ts2) = max_from (max_from last ts1) ts2.
Proof. apply fold_left_app. Qed.

(** The loop on a script that keeps it polling, with the requests it
    sends. *)
Lemma follow_loop_trace (inp : cloudwatchlogs_FilterLogEventsInput)
      (polls : list poll) : forall st,
  healthy polls = true -> wf_tail (tail_of st) ->
  (retryCount st + failures polls < retryLimit)%Z ->
  cwInput st = with_start (lastSeenTime st) inp ->
  exists st',
    follow_loop formatter cluster taskID polls st = (Waiting, st')
    /\ lastSeenTime st' = max_from (lastSeenTime st) (timestamps (delivered polls))
    /\ cwInput st' = with_start (lastSeenTime st') inp
    /\ calls st' = calls st ++ expected_calls inp cluster taskID (lastSeenTime st) polls.
Proof.
  induction polls as [|p ps IH]; intros st Hh Hwf Hlt Hin.
  - exists st. split_and!; try done. cbn. by rewrite app_nil_r.
  - apply healthy_cons in Hh as (He & Hr & Hh).
    rewrite failures_cons in Hlt. pose proof (failures_nonneg ps) as Hn.
    destruct p as [lr sr]. cbn [fst snd] in *.
    assert (log_err lr <> None -> (retryCount st + 1 < retryLimit)%Z) as Hbudget.
    { unfold failed in Hlt. cbn [fst] in Hlt. destruct (log_err lr); [lia|done]. }
    destruct (iteration_to_status lr sr st He Hwf Hbudget)
      as (st2 & E2 & T2 & W2 & C2 & I2 & K2 & R2).
    rewrite (status_check_running cluster taskID sr st2 Hr) in E2.
    set (st3 := set_calls (calls st2 ++ [CallDescribeTasks cluster [taskID]]) st2) in E2.
    assert (lastSeenTime st2
            = max_from (lastSeenTime st) (timestamps (events_of lr))) as Hl2.
    { change (lastSeenTime st2) with (t_last (tail_of st2)).
      rewrite T2. by rewrite absorb_all_last. }
    destruct (IH st3) as (st' & E' & L' & I' & K'); try done.
    + cbn [retryCount set_calls st3]. rewrite R2. unfold failed in Hlt.
      cbn [fst] in Hlt. destruct (log_err lr); lia.
    + cbn [cwInput lastSeenTime set_calls st3]. rewrite I2, Hin.
      destruct (lastSeenTime st2) as [t|] eqn:Hl; [done|].
      destruct (lastSeenTime st) as [w|]; [|done].
      symmetry in Hl2. by apply max_from_some in Hl2.
    + exists st'. cbn [follow_loop]. unfold bind. rewrite E2, E'.
      split_and!; try done.
      * rewrite L'. cbn [lastSeenTime set_calls st3]. rewrite Hl2.
        unfold delivered. cbn [map concat fst]. by rewrite timestamps_app, max_from_app.
      * rewrite K'. cbn [calls lastSeenTime set_calls st3 expected_calls fst].
        rewrite K2, Hl2, Hin. by rewrite <- !app_assoc.
Qed.

Lemma expected_calls_shape (inp : cloudwatchlogs_FilterLogEventsInput)
      (polls : list poll) : forall last,
  length (expected_calls inp cluster taskID last polls) = (2 * length polls)%nat
  /\ forall k, (k < length polls)%nat ->
       expected_calls inp cluster taskID last polls !! (2 * k)%nat
       = Some (CallFilterLogEventsPages
                 (with_start (max_from last (timestamps (delivered (take k polls))))
                             inp))
       /\ expected_calls inp cluster taskID last polls !! (2 * k + 1)%nat
          = Some (CallDescribeTasks cluster [taskID]).
Proof.
  induction polls as [|p ps IH]; intros last.
  - split; [done|]. cbn. lia.
  - destruct (IH (max_from last (timestamps (events_of p.1)))) as (Hlen & Hk).
    cbn [expected_calls length]. split; [rewrite Hlen; lia|].
    intros [|k] Hlt; [done|].
    destruct (Hk k ltac:(cbn [length] in Hlt; lia)) as (Hq & Hd).
    replace (2 * S k)%nat with (S (S (2 * k))) by lia.
    replace (S (S (2 * k)) + 1)%nat with (S (S (2 * k + 1))) by lia.
    split; [|exact Hd].
    etrans; [exact Hq|].
    unfold delivered. cbn [take map concat]. by rewrite timestamps_app, max_from_app.
Qed.

(** X9.  While the loop polls, it sends a log query and then a status
    query in every turn and nothing else; the log query of each turn is
    for the log group and stream set up before the loop and starts at
    the greatest time stamp delivered in the turns before it, without
    bound as long as no event was delivered; the status query asks for
    the derived task ID in the cluster of the flag. *)
Theorem queries_start_at_watermark (inp : cloudwatchlogs_FilterLogEventsInput)
        (polls : list poll) (st : state) :
  loop_start st -> healthy polls = true -> (failures polls < retryLimit)%Z ->
  cwInput st = with_start None inp ->
  exists st',
    follow_loop formatter cluster taskID polls st = (Waiting, st')
    /\ length (calls st') = (length (calls st) + 2 * length polls)%nat
    /\ forall k, (k < length polls)%nat ->
         calls st' !! (length (calls st) + 2 * k)%nat
         = Some (CallFilterLogEventsPages
                   (with_start (max_from None (timestamps (delivered (take k polls))))
                               inp))
         /\ calls st' !! (length (calls st) + (2 * k + 1))%nat
            = Some (CallDescribeTasks cluster [taskID]).
Proof.
  intros Hstart Hh Hlt Hin. pose proof (loop_start_wf st Hstart) as Hwf.
  destruct Hstart as (Hl & Hs & Hrc).
  destruct (follow_loop_trace inp polls st Hh Hwf) as (st' & E & _ & _ & K);
    [lia|by rewrite Hl|].
  destruct (expected_calls_shape inp polls None) as (Hlen & Hk).
  exists st'. split; [done|]. rewrite K, Hl.
  split; [rewrite length_app, Hlen; lia|].
  intros k Hklt. destruct (Hk k Hklt) as (Hq & Hd).
  rewrite !lookup_app_r by lia.
  replace (length (calls st) + 2 * k - length (calls st))%nat with (2 * k)%nat by lia.
  replace (length (calls st) + (2 * k + 1) - length (calls st))%nat
    with (2 * k + 1)%nat by lia.
  done.
Qed.

(** The turn after a prefix that kept the loop polling comes to its
    status query with all events delivered so far absorbed. *)
Lemma follow_loop_to_status (polls : list poll) (lr : log_response)
      (sr : describe_tasks_response) (rest : list poll) (st : state) :
  loop_start st -> healthy polls = true ->
  forallb wf_event (events_of lr) = true ->
  (failures (polls ++ [(lr, sr)]) < retryLimit)%Z ->
  exists st2,
    follow_loop formatter cluster taskID (polls ++ (lr, sr) :: rest) st
    = (status_check cluster taskID sr ;; follow_loop formatter cluster taskID rest)%cmd st2
    /\ tail_of st2
       = absorb_all (color_NoColor st) formatter (tail_of st)
                    (delivered polls ++ events_of lr).
Proof.
  intros Hstart Hh Hes Hlt. pose proof (loop_start_wf st Hstart) as Hwf.
  destruct Hstart as (_ & _ & Hrc).
  rewrite failures_app, failures_cons in Hlt. change (failures []) with 0%Z in Hlt.
  unfold failed in Hlt. cbn [fst] in Hlt.
  assert (retryCount st + failures polls < retryLimit)%Z as Hpre
    by (destruct (log_err lr); lia).
  destruct (follow_loop_waiting formatter cluster taskID polls st Hh Hwf Hpre)
    as (st1 & E1 & T1 & R1 & C1 & W1).
  rewrite (follow_loop_app formatter cluster taskID polls _ st st1 Hh Hwf Hpre E1).
  destruct (iteration_to_status lr sr st1 Hes W1) as (st2 & E2 & T2 & _).
  { intros Hne. rewrite R1. destruct (log_err lr); [lia|done]. }
  exists st2. cbn [follow_loop]. unfold bind.
  rewrite E2. split; [reflexivity|].
  by rewrite T2, T1, C1, absorb_all_app.
Qed.

(** X7.  When the status query of a turn reports the task as [STOPPED],
    the command exits with code 0 in that turn, whether the log query
    of the turn succeeded or failed below the ceiling: the events the
    turn delivered are printed before, nothing else is printed, and the
    rest of the script is never asked for. *)
Theorem stopped_task_exits (polls : list poll) (lr : log_response)
        (task : ecs_Task) (tasks : list ecs_Task) (rest : list poll) (st : state) :
  loop_start st -> healthy polls = true ->
  forallb wf_event (events_of lr) = true ->
  (failures (polls ++ [(lr, DescribeTasksOk (task :: tasks))]) < retryLimit)%Z ->
  StringValue (LastStatus task) = "STOPPED" ->
  exists st',
    follow_loop formatter cluster taskID
                (polls ++ (lr, DescribeTasksOk (task :: tasks)) :: rest) st
    = (Exited 0, st')
    /\ tail_of st'
       = absorb_all (color_NoColor st) formatter (tail_of st)
                    (delivered polls ++ events_of lr).
Proof.
  intros Hstart Hh Hes Hlt Hstop.
  destruct (follow_loop_to_status polls lr _ rest st Hstart Hh Hes Hlt)
    as (st2 & -> & T2).
  unfold bind, status_check, bind, call, modify. rewrite Hstop. cbn.
  eexists. split; [reflexivity|]. exact T2.
Qed.

(** X8.  When the status query of a turn answers without error but
    lists no task, the command panics on [Tasks[0]] in that turn, after
    it printed the events the turn delivered. *)
Theorem status_without_task_panics (polls : list poll) (lr : log_response)
        (rest : list poll) (st : state) :
  loop_start st -> healthy polls = true ->
  forallb wf_event (events_of lr) = true ->
  (failures (polls ++ [(lr, DescribeTasksOk [])]) < retryLimit)%Z ->
  exists st',
    follow_loop formatter cluster taskID (polls ++ (lr, DescribeTasksOk []) :: rest) st
    = (Panicked, st')
    /\ tail_of st'
       = absorb_all (color_NoColor st) formatter (tail_of st)
                    (delivered polls ++ events_of lr).
Proof.
  intros Hstart Hh Hes Hlt.
  destruct (follow_loop_to_status polls lr _ rest st Hstart Hh Hes Hlt)
    as (st2 & -> & T2).
  unfold bind, status_check, bind, call, modify, panic.
  eexists. split; [reflexivity|]. exact T2.
Qed.

Lemma max_from_bounds (ts : list Z) : forall (a : option Z),
  (a <> None \/ ts <> []) ->
  exists m, max_from a ts = Some m
            /\ (forall w, a = Some w -> (w <= m)%Z)
            /\ (forall t, In t ts -> (t <= m)%Z).
Proof.
  induction ts as [|t ts IH]; intros a Ha.
  - destruct a as [w|]; [|by destruct Ha].
    exists w. split_and!; try done. by intros w' [= ->].
  - unfold max_from. cbn [fold_left]. fold (max_from (lift_max a t) ts).
    destruct (IH (lift_max a t)) as (m & -> & Hw & Ht).
    { left. by destruct a. }
    exists m. split_and!; [done| |].
    + intros w ->. specialize (Hw (Z.max w t) eq_refl). lia.
    + intros t' [<-|Hin]; [|by apply Ht].
      destruct a as [w|]; cbn in Hw.
      * specialize (Hw (Z.max w t) eq_refl). lia.
      * by apply Hw.
Qed.

(** X15.  Whatever the order in which events are delivered, and from
    any state of the loop, the watermark after a run of polls is the
    greatest of the watermark before and the time stamps delivered: it
    never decreases and no delivered time stamp is above it. *)
Theorem watermark_is_maximum (polls : list poll) (st : state) :
  healthy polls = true -> wf_tail (tail_of st) ->
  (retryCount st + failures polls < retryLimit)%Z ->
  exists st',
    follow_loop formatter cluster taskID polls st = (Waiting, st')
    /\ lastSeenTime st' = max_from (lastSeenTime st) (timestamps (delivered polls))
    /\ (forall w, lastSeenTime st = Some w ->
                  exists w', lastSeenTime st' = Some w' /\ (w <= w')%Z)
    /\ (forall t, In t (timestamps (delivered polls)) ->
                  exists w', lastSeenTime st' = Some w' /\ (t <= w')%Z).
Proof.
  intros Hh Hwf Hlt.
  destruct (follow_loop_waiting formatter cluster taskID polls st Hh Hwf Hlt)
    as (st' & E & T & _).
  assert (lastSeenTime st' = max_from (lastSeenTime st) (timestamps (delivered polls)))
    as Hl.
  { change (lastSeenTime st') with (t_last (tail_of st')).
    rewrite T. rewrite absorb_all_last by (by apply healthy_delivered). done. }
  exists st'. split_and!; try done.
  - intros w Hw.
    destruct (max_from_bounds (timestamps (delivered polls)) (lastSeenTime st))
      as (m & Hm & Hb & _); [left; congruence|].
    exists m. split; [congruence|by apply Hb].
  - intros t Hin.
    destruct (max_from_bounds (timestamps (delivered polls)) (lastSeenTime st))
      as (m & Hm & _ & Hb); [right; by destruct (timestamps (delivered polls))|].
    exists m. split; [congruence|by apply Hb].
Qed.

End TurnFacts.

(** ** What reaches the terminal *)

Section PrintingFacts.
Import GoLib TaskDefinitionsRun Run Coverage.
Context `{Libraries}.
Variable formatter : colorjson_Formatter.
Variables cluster taskID : string.

Local Arguments printEvent : simpl never.

Lemma seen_in_insert_old (m : option (gmap string bool)) (id id' : string) :
  seen_in m id' = true ->
  seen_in (Some (<[id := true]> (default ∅ m))) id' = true.
Proof.
  destruct m as [m|]; [|done]. cbn.
  destruct (decide (id = id')) as [->|Hne].
  - by rewrite lookup_insert_eq.
  - by rewrite lookup_insert_ne.
Qed.

Lemma seen_in_insert_same (m : gmap string bool) (id : string) :
  seen_in (Some (<[id := true]> m)) id = true.
Proof. cbn. by rewrite lookup_insert_eq. Qed.

(** One event, not below the watermark, against the keys printed so
    far: it is printed exactly when its key is new. *)
Lemma absorb_new_key (noColor : bool) (ks : list (option Z * option string))
      (w : tail) (e : cloudwatchlogs_FilteredLogEvent) (t : Z) :
  wf_event e = true -> Timestamp e = Some t ->
  (forall l, t_last w = Some l -> (l <= t)%Z) ->
  keys_at_watermark ks w ->
  t_out (absorb noColor formatter w e)
  = t_out w ++ map (rendering noColor formatter)
                   (if bool_decide (key e ∈ ks) then [] else [e])
  /\ keys_at_watermark (if bool_decide (key e ∈ ks) then ks else key e :: ks)
                       (absorb noColor formatter w e).
Proof.
  intros Hwf Ht Hle (Ha & Hb & Hc).
  destruct (wf_event_timestamp e Hwf) as (t' & id & Ht' & Hid).
  assert (key e = (Some t, Some id)) as Hkey by (unfold key; by rewrite Ht, Hid).
  rewrite Hkey.
  destruct (advances (t_last w) t) eqn:Hadv.
  - assert ((Some t, Some id) ∉ ks) as Hnew.
    { intros Hin. destruct (Hb t (Some id) Hin) as (l & Hl & Hlt).
      rewrite Hl in Hadv. cbn in Hadv. apply Z.ltb_lt in Hadv. lia. }
    rewrite (bool_decide_eq_false_2 _ Hnew).
    rewrite (absorb_advance formatter noColor w e t id Ht Hid Hadv).
    split; [done|]. cbn [t_last t_seen]. split_and!.
    + intros id'. rewrite elem_of_cons. split.
      * intros Hs. destruct (seen_in_insert None id id' Hs) as [->|Hn]; [by left|done].
      * intros [[= ->]|Hin]; [apply seen_in_insert_same|].
        destruct (Hb t (Some id') Hin) as (l & Hl & Hlt).
        rewrite Hl in Hadv. cbn in Hadv. apply Z.ltb_lt in Hadv. lia.
    + intros t0 k. rewrite elem_of_cons. intros [[= -> ->]|Hin].
      * exists t. split; [done|lia].
      * destruct (Hb t0 k Hin) as (l & Hl & Hlt). exists t. split; [done|].
        rewrite Hl in Hadv. cbn in Hadv. apply Z.ltb_lt in Hadv. lia.
    + intros k. rewrite elem_of_cons. intros [->|Hin]; [by exists t, id|by apply Hc].
  - assert (t_last w = Some t) as Hlast.
    { unfold advances in Hadv. destruct (t_last w) as [l|]; [|done].
      specialize (Hle l eq_refl). apply Z.ltb_ge in Hadv. f_equal. lia. }
    destruct (seen_in (t_seen w) id) eqn:Hs.
    + assert ((Some t, Some id) ∈ ks) as Hold by (rewrite <- Hlast; by apply Ha).
      rewrite (bool_decide_eq_true_2 _ Hold).
      rewrite (absorb_seen formatter noColor w e t id Ht Hid Hadv Hs).
      split; [by rewrite app_nil_r|done].
    + assert ((Some t, Some id) ∉ ks) as Hnew.
      { intros Hin. rewrite <- Hlast in Hin. apply Ha in Hin. congruence. }
      rewrite (bool_decide_eq_false_2 _ Hnew).
      rewrite (absorb_fresh formatter noColor w e t id Ht Hid Hadv Hs).
      split; [done|]. cbn [t_last t_seen]. rewrite Hlast. split_and!.
      * intros id'. rewrite elem_of_cons. split.
        -- intros Hs'. destruct (seen_in_insert _ id id' Hs') as [->|Hold]; [by left|].
           right. rewrite <- Hlast. by apply Ha.
        -- intros [[= ->]|Hin]; [apply seen_in_insert_same|].
           apply seen_in_insert_old. apply Ha. by rewrite Hlast.
      * intros t0 k. rewrite elem_of_cons. intros [[= -> ->]|Hin].
        -- exists t. split; [done|lia].
        -- destruct (Hb t0 k Hin) as (l & Hl & Hlt). exists t. split; [done|].
           rewrite Hlast in Hl. injection Hl as <-. done.
      * intros k. rewrite elem_of_cons. intros [->|Hin]; [by exists t, id|by apply Hc].
Qed.

(** Events in the order of their time stamps: the lines printed are
    those of the first occurrences of the keys. *)
Lemma absorb_all_first_occurrences (noColor : bool)
      (es : list cloudwatchlogs_FilteredLogEvent) : forall ks w,
  forallb wf_event es = true -> nondecreasing (timestamps es) = true ->
  (forall l t, t_last w = Some l -> head (timestamps es) = Some t -> (l <= t)%Z) ->
  keys_at_watermark ks w ->
  t_out (absorb_all noColor formatter w es)
  = t_out w ++ map (rendering noColor formatter) (first_occurrences ks es).
Proof.
  induction es as [|e es IH]; intros ks w Hes Hnd Hle Hinv.
  - cbn. by rewrite app_nil_r.
  - cbn [forallb] in Hes. apply andb_prop in Hes as [He Hes].
    destruct (wf_event_timestamp e He) as (t & id & Ht & Hid).
    rewrite (timestamps_cons e es t Ht) in Hnd, Hle.
    apply nondecreasing_cons in Hnd as [Hnd Hhead].
    change (absorb_all noColor formatter w (e :: es))
      with (absorb_all noColor formatter (absorb noColor formatter w e) es).
    destruct (absorb_new_key noColor ks w e t He Ht) as (Hout & Hinv'); [|done|].
    { intros l Hl. by apply (Hle l t). }
    assert (forall l t', t_last (absorb noColor formatter w e) = Some l ->
                         head (timestamps es) = Some t' -> (l <= t')%Z) as Hle'.
    { intros l t' Hl Ht'. rewrite (absorb_last formatter noColor w e t He Ht) in Hl.
      specialize (Hhead t' Ht').
      destruct (t_last w) as [l0|] eqn:Hl0; cbn in Hl.
      - specialize (Hle l0 t eq_refl eq_refl). injection Hl as <-. lia.
      - injection Hl as <-. done. }
    cbn [first_occurrences].
    destruct (bool_decide (key e ∈ ks)).
    + rewrite (IH ks _ Hes Hnd Hle' Hinv'), Hout. cbn. by rewrite app_nil_r.
    + rewrite (IH (key e :: ks) _ Hes Hnd Hle' Hinv'), Hout. cbn.
      by rewrite <- app_assoc.
Qed.

(** The first occurrences have pairwise different keys, none of them
    among the earlier ones, and cover the keys of all events. *)
Lemma first_occurrences_keys (es : list cloudwatchlogs_FilteredLogEvent) : forall ks,
  NoDup (map key (first_occurrences ks es))
  /\ (forall k, k ∈ map key (first_occurrences ks es) -> (k ∉ ks) /\ (k ∈ map key es))
  /\ (forall e, e ∈ es -> key e ∈ ks \/ key e ∈ map key (first_occurrences ks es)).
Proof.
  induction es as [|e es IH]; intros ks.
  - split_and!; [constructor|intros k Hk; inversion Hk|intros e He; inversion He].
  - cbn [first_occurrences]. destruct (bool_decide_reflect (key e ∈ ks)) as [Hin|Hnin].
    + destruct (IH ks) as (Hnd & Hk & Hcov). split_and!; [done| |].
      * intros k Hkin. destruct (Hk k Hkin). split; [done|]. cbn. by right.
      * intros e0. rewrite elem_of_cons. intros [->|Hin0]; [by left|by apply Hcov].
    + destruct (IH (key e :: ks)) as (Hnd & Hk & Hcov). cbn [map]. split_and!.
      * constructor; [|done]. intros Hin. destruct (Hk _ Hin) as [Hnot _].
        apply Hnot. by left.
      * intros k. rewrite elem_of_cons. intros [->|Hin].
        -- split; [done|by left].
        -- destruct (Hk k Hin) as [Hnot Hes]. split; [|by right].
           intros Hks. apply Hnot. by right.
      * intros e0. rewrite elem_of_cons. intros [->|Hin0]; [right; by left|].
        destruct (Hcov e0 Hin0) as [Hk0|Hk0]; [|right; by right].
        apply elem_of_cons in Hk0 as [->|Hk0]; [right; by left|by left].
Qed.

(** X10.  While the log source delivers the events in the order of
    their time stamps, the loop prints every delivered event exactly
    once per key (time stamp and identifier), in the order of delivery:
    the lines printed are those of the first occurrences, which have
    pairwise different keys and cover the key of every event
    delivered. *)
Theorem ordered_events_printed_once (polls : list poll) (st : state) :
  loop_start st -> healthy polls = true -> (failures polls < retryLimit)%Z ->
  nondecreasing (timestamps (delivered polls)) = true ->
  exists st',
    follow_loop formatter cluster taskID polls st = (Waiting, st')
    /\ stdout st' = stdout st ++ map (rendering (color_NoColor st) formatter)
                                     (first_occurrences [] (delivered polls))
    /\ NoDup (map key (first_occurrences [] (delivered polls)))
    /\ (forall e, e ∈ delivered polls ->
                  key e ∈ map key (first_occurrences [] (delivered polls))).
Proof.
  intros Hstart Hh Hlt Hnd. pose proof (loop_start_wf st Hstart) as Hwf.
  destruct Hstart as (Hl & Hs & Hrc).
  destruct (follow_loop_waiting formatter cluster taskID polls st Hh Hwf)
    as (st' & E & T & _); [lia|].
  destruct (first_occurrences_keys (delivered polls) []) as (Hdup & _ & Hcov).
  exists st'. split_and!; try done.
  - change (stdout st') with (t_out (tail_of st')). rewrite T.
    apply absorb_all_first_occurrences; try done.
    + by apply healthy_delivered.
    + cbn. by rewrite Hl.
    + split_and!.
      * intros id. cbn. rewrite Hs. split; [done|]. intros Hin. inversion Hin.
      * intros t k Hin. inversion Hin.
      * intros k Hin. inversion Hin.
  - intros e He. destruct (Hcov e He) as [Hin|Hin]; [inversion Hin|done].
Qed.

Lemma absorb_prints_at_most (noColor : bool) (w : tail)
      (e : cloudwatchlogs_FilteredLogEvent) :
  t_out (absorb noColor formatter w e) = t_out w
  \/ t_out (absorb noColor formatter w e) = t_out w ++ [rendering noColor formatter e].
Proof.
  unfold absorb. destruct (Timestamp e) as [t|]; [|by left].
  destruct (EventId e) as [id|]; [|by left].
  destruct (advances (t_last w) t); cbn [t_seen t_out];
    destruct (seen_in _ id); cbn [t_out]; auto.
Qed.

Lemma absorb_all_sublist (noColor : bool)
      (es : list cloudwatchlogs_FilteredLogEvent) : forall w,
  exists printed,
    sublist printed es
    /\ t_out (absorb_all noColor formatter w es)
       = t_out w ++ map (rendering noColor formatter) printed.
Proof.
  induction es as [|e es IH]; intros w.
  - exists []. split; [constructor|]. cbn. by rewrite app_nil_r.
  - change (absorb_all noColor formatter w (e :: es))
      with (absorb_all noColor formatter (absorb noColor formatter w e) es).
    destruct (IH (absorb noColor formatter w e)) as (printed & Hsub & ->).
    destruct (absorb_prints_at_most noColor w e) as [->| ->].
    + exists printed. split; [by apply sublist_cons|done].
    + exists (e :: printed). split; [by apply sublist_skip|].
      cbn [map]. by rewrite <- app_assoc.
Qed.

(** X17.  In whatever order the events are delivered, what the loop
    prints while it polls are lines of delivered events only, each
    rendered by [printEvent], in the order of delivery: the new lines
    are the renderings of a subsequence of the events delivered. *)
Theorem printed_lines_are_delivered (polls : list poll) (st : state) :
  healthy polls = true -> wf_tail (tail_of st) ->
  (retryCount st + failures polls < retryLimit)%Z ->
  exists st' printed,
    follow_loop formatter cluster taskID polls st = (Waiting, st')
    /\ sublist printed (delivered polls)
    /\ stdout st' = stdout st ++ map (rendering (color_NoColor st) formatter) printed.
Proof.
  intros Hh Hwf Hlt.
  destruct (follow_loop_waiting formatter cluster taskID polls st Hh Hwf Hlt)
    as (st' & E & T & _).
  destruct (absorb_all_sublist (color_NoColor st) (delivered polls) (tail_of st))
    as (printed & Hsub & Hout).
  exists st', printed. split_and!; try done.
  change (stdout st') with (t_out (tail_of st')). by rewrite T.
Qed.

(** X11.  From a state in which the seen set exists once a time is
    seen, as every state of the loop is, handling an event panics
    exactly when the event has no identifier, or has no time stamp
    while a time is already seen; otherwise it returns.  The write to
    the seen set never meets the nil map, and the state it leaves, also
    when it panics, is again such a state. *)
Theorem handleEvent_panics_on_nil_fields (e : cloudwatchlogs_FilteredLogEvent)
        (st : state) :
  wf_tail (tail_of st) ->
  (fst (handleEvent formatter e st) = Panicked
   <-> EventId e = None \/ (lastSeenTime st <> None /\ Timestamp e = None))
  /\ (fst (handleEvent formatter e st) = Panicked
      \/ fst (handleEvent formatter e st) = Ret tt)
  /\ wf_tail (tail_of (snd (handleEvent formatter e st))).
Proof.
  unfold wf_tail. destruct st as [last seen inp rc nc out cs]. cbn [tail_of t_last t_seen].
  intros Hwf. unfold handleEvent, updateLastSeenTime, bind, get. cbn [lastSeenTime].
  destruct e as [eid stream msg ts]. cbn [Timestamp EventId].
  destruct last as [l|].
  - destruct seen as [m|]; [|by destruct Hwf].
    destruct ts as [t|]; cbn [deref ret panic].
    + destruct (l <? t)%Z; cbn; destruct eid as [id|]; cbn.
      * rewrite lookup_empty. cbn. rewrite printEvent_eq. cbn.
        split_and!; [split; [done|intros [?|[_ ?]]; done]|by right|done].
      * split_and!; [split; [by left|done]|by left|done].
      * destruct (m !! id); cbn; rewrite ?printEvent_eq; cbn;
          (split_and!; [split; [done|intros [?|[_ ?]]; done]|by right|done]).
      * split_and!; [split; [by left|done]|by left|done].
    + split_and!; [split; [by right|done]|by left|done].
  - cbn. destruct eid as [id|]; cbn.
    + rewrite lookup_empty. cbn. rewrite printEvent_eq. cbn.
      split_and!; [split; [done|intros [?|[? _]]; done]|by right|done].
    + split_and!; [split; [by left|done]|by left|intros Hts; done].
Qed.

(** X12.  Events without time stamp are never deduplicated: as long as
    no time is seen, every event that has an identifier is printed,
    also one that was printed before, and the watermark stays unset. *)
Theorem events_without_timestamp_all_printed
        (es : list cloudwatchlogs_FilteredLogEvent) : forall (st : state),
  lastSeenTime st = None ->
  Forall (fun e => Timestamp e = None /\ EventId e <> None) es ->
  exists st',
    for_range es (handleEvent formatter) st = (Ret tt, st')
    /\ stdout st' = stdout st ++ map (rendering (color_NoColor st) formatter) es
    /\ lastSeenTime st' = None
    /\ color_NoColor st' = color_NoColor st.
Proof.
  induction es as [|e es IH]; intros st Hl Hes.
  - exists st. split_and!; try done. cbn. by rewrite app_nil_r.
  - apply Forall_cons in Hes as [[Ht Hid] Hes].
    destruct (EventId e) as [id|] eqn:Heid; [|done].
    set (st1 := set_seenEventIDs (Some (<[id := true]> ∅))
                  (set_stdout (stdout st ++ [rendering (color_NoColor st) formatter e])
                     (set_seenEventIDs (Some ∅) (set_lastSeenTime None st)))).
    assert (handleEvent formatter e st = (Ret tt, st1)) as E1.
    { unfold handleEvent, updateLastSeenTime, bind, get. rewrite Hl, Ht, Heid.
      cbn. rewrite lookup_empty. cbn. rewrite printEvent_eq. reflexivity. }
    destruct (IH st1) as (st' & E' & O' & L' & C'); [done|done|].
    exists st'. cbn [for_range]. unfold bind. rewrite E1, E'.
    split_and!; try done.
    rewrite O'. cbn. by rewrite <- app_assoc.
Qed.

(** X16.  An event without message or without stream name is printed
    all the same: a missing message is the empty text, which is no
    JSON, so the line ends after the prefix; a missing stream name
    gives an empty tag. *)
Theorem printEvent_missing_fields (e : cloudwatchlogs_FilteredLogEvent) (st : state) :
  (Message e = None ->
   printEvent formatter e st
   = (Ret tt,
      set_stdout (stdout st
                  ++ [event_line
                        (color_Sprint (color_NoColor st) FgRed
                                      (time_Format_RFC3339 (Timestamp e)))
                        (color_Sprint (color_NoColor st) FgWhite
                                      (StringValue (LogStreamName e)))
                        ""]) st))
  /\ (LogStreamName e = None ->
      exists body,
        printEvent formatter e st
        = (Ret tt,
           set_stdout (stdout st
                       ++ [event_line
                             (color_Sprint (color_NoColor st) FgRed
                                           (time_Format_RFC3339 (Timestamp e)))
                             (color_Sprint (color_NoColor st) FgWhite "")
                             body]) st)).
Proof.
  split.
  - intros Hm. rewrite printEvent_eq. unfold rendering. by rewrite Hm.
  - intros Hs. rewrite printEvent_eq. unfold rendering. rewrite Hs. by eexists.
Qed.

End PrintingFacts.

(** ** Events delivered again *)

Section RedeliveryFacts.
Import GoLib TaskDefinitionsRun Run Coverage.
Context `{Libraries}.
Variable formatter : colorjson_Formatter.
Variables cluster taskID : string.

Lemma delivered_app (ps qs : list poll) :
  delivered (ps ++ qs) = delivered ps ++ delivered qs.
Proof. unfold delivered. by rewrite map_app, concat_app. Qed.

(** Handling an event records its identifier, whether the event is
    printed or not. *)
Lemma absorb_records (noColor : bool) (w : tail)
      (e : cloudwatchlogs_FilteredLogEvent) (t : Z) (id : string) :
  Timestamp e = Some t -> EventId e = Some id ->
  seen_in (t_seen (absorb noColor formatter w e)) id = true.
Proof.
  intros Ht Hid. destruct (advances (t_last w) t) eqn:Hadv.
  - rewrite (absorb_advance formatter noColor w e t id Ht Hid Hadv).
    apply seen_in_insert_same.
  - destruct (seen_in (t_seen w) id) eqn:Hs.
    + by rewrite (absorb_seen formatter noColor w e t id Ht Hid Hadv Hs).
    + rewrite (absorb_fresh formatter noColor w e t id Ht Hid Hadv Hs).
      apply seen_in_insert_same.
Qed.

(** An event that does not move the watermark takes no identifier out
    of the seen set. *)
Lemma absorb_keeps (noColor : bool) (w : tail)
      (e : cloudwatchlogs_FilteredLogEvent) (t l : Z) (id' : string) :
  wf_event e = true -> Timestamp e = Some t -> t_last w = Some l -> (t <= l)%Z ->
  seen_in (t_seen w) id' = true ->
  seen_in (t_seen (absorb noColor formatter w e)) id' = true.
Proof.
  intros Hwf Ht Hl Hle Hs.
  destruct (wf_event_timestamp e Hwf) as (t' & id & _ & Hid).
  assert (advances (t_last w) t = false) as Hadv.
  { rewrite Hl. cbn. apply Z.ltb_ge. lia. }
  destruct (seen_in (t_seen w) id) eqn:Hs'.
  - by rewrite (absorb_seen formatter noColor w e t id Ht Hid Hadv Hs').
  - rewrite (absorb_fresh formatter noColor w e t id Ht Hid Hadv Hs').
    by apply seen_in_insert_old.
Qed.

Lemma absorb_all_keeps (noColor : bool)
      (es : list cloudwatchlogs_FilteredLogEvent) : forall (w : tail) (l : Z) (id' : string),
  forallb wf_event es = true -> t_last w = Some l ->
  (forall t, In t (timestamps es) -> (t <= l)%Z) ->
  seen_in (t_seen w) id' = true ->
  seen_in (t_seen (absorb_all noColor formatter w es)) id' = true.
Proof.
  induction es as [|e es IH]; intros w l id' Hes Hl Hle Hs; [done|].
  cbn [forallb] in Hes. apply andb_prop in Hes as [He Hes].
  destruct (wf_event_timestamp e He) as (t & id & Ht & Hid).
  rewrite (timestamps_cons e es t Ht) in Hle.
  change (absorb_all noColor formatter w (e :: es))
    with (absorb_all noColor formatter (absorb noColor formatter w e) es).
  assert (t <= l)%Z as Htl by (apply Hle; by left).
  apply (IH _ l); [done| | |].
  - rewrite (absorb_last formatter noColor w e t He Ht), Hl. cbn. f_equal. lia.
  - intros t0 Hin. apply Hle. by right.
  - by apply (absorb_keeps noColor w e t l).
Qed.

(** In whatever order the events come, the identifiers of those that
    carry the time of the final watermark are all in the seen set. *)
Lemma absorb_all_records (noColor : bool)
      (es : list cloudwatchlogs_FilteredLogEvent) :
  forall (w : tail) (e : cloudwatchlogs_FilteredLogEvent) (id : string),
  forallb wf_event es = true -> In e es -> EventId e = Some id ->
  Timestamp e = t_last (absorb_all noColor formatter w es) ->
  seen_in (t_seen (absorb_all noColor formatter w es)) id = true.
Proof.
  induction es as [|e0 es IH]; intros w e id Hes Hin Hid Hts; [done|].
  cbn [forallb] in Hes. apply andb_prop in Hes as [He0 Hes].
  change (absorb_all noColor formatter w (e0 :: es))
    with (absorb_all noColor formatter (absorb noColor formatter w e0) es) in *.
  destruct Hin as [->|Hin]; [|by apply (IH _ e id)].
  destruct (wf_event_timestamp e He0) as (t & id0 & Ht & Hid0).
  pose proof (absorb_last formatter noColor w e t He0 Ht) as Hl1.
  rewrite (absorb_all_last formatter noColor es _ Hes), Ht in Hts.
  destruct (max_from_bounds (timestamps es)
              (t_last (absorb noColor formatter w e))) as (m & Hm & Hlow & Hup).
  { left. rewrite Hl1. by destruct (t_last w). }
  rewrite Hm in Hts. injection Hts as <-.
  assert (t_last (absorb noColor formatter w e) = Some t) as Hl.
  { rewrite Hl1. destruct (t_last w) as [l0|] eqn:Hl0; cbn; [|done].
    specialize (Hlow (Z.max l0 t)). rewrite Hl1 in Hlow. cbn in Hlow.
    specialize (Hlow eq_refl). f_equal. lia. }
  apply (absorb_all_keeps noColor es _ t); [done|done|done|].
  by apply (absorb_records noColor w e t).
Qed.

(** Events at the watermark whose identifiers are in the seen set leave
    the tail as it is. *)
Lemma absorb_all_again (noColor : bool)
      (es : list cloudwatchlogs_FilteredLogEvent) (w : tail) :
  (forall e, In e es ->
             wf_event e = true /\ Timestamp e = t_last w
             /\ forall id, EventId e = Some id -> seen_in (t_seen w) id = true) ->
  absorb_all noColor formatter w es = w.
Proof.
  induction es as [|e es IH]; intros Hes; [done|].
  change (absorb_all noColor formatter w (e :: es))
    with (absorb_all noColor formatter (absorb noColor formatter w e) es).
  destruct (Hes e) as (He & Hts & Hseen); [by left|].
  destruct (wf_event_timestamp e He) as (t & id & Ht & Hid).
  rewrite (absorb_seen formatter noColor w e t id Ht Hid).
  - apply IH. intros e' Hin. apply Hes. by right.
  - rewrite <- Hts, Ht. cbn. apply Z.ltb_irrefl.
  - by apply Hseen.
Qed.

(** C2.  Three events with time stamps [t1 <= t2 <= t3], delivered
    over any number of pages and polls while the loop runs, leave the
    watermark at [max t1 t2 t3], and each of them is printed once: the
    lines printed are those of the first occurrences of their keys, so
    one that is delivered twice among the three is printed once.  The
    identifier of every delivered event at the watermark is recorded in
    the seen set, so when a further poll delivers such events again,
    the loop prints nothing and leaves watermark and seen set as they
    are.  And in any state, an event that comes again with a time stamp
    not above the watermark and an identifier recorded in the seen set
    changes nothing. *)
Theorem watermark_monotone_dedup (polls : list poll)
        (st : state) (e1 e2 e3 : cloudwatchlogs_FilteredLogEvent) (t1 t2 t3 : Z) :
  loop_start st -> healthy polls = true -> (failures polls < retryLimit)%Z ->
  delivered polls = [e1; e2; e3] ->
  Timestamp e1 = Some t1 -> Timestamp e2 = Some t2 -> Timestamp e3 = Some t3 ->
  (t1 <= t2 <= t3)%Z ->
  exists st',
    follow_loop formatter cluster taskID polls st = (Waiting, st')
    /\ lastSeenTime st' = Some (Z.max t1 (Z.max t2 t3))
    /\ stdout st' = stdout st ++ map (rendering (color_NoColor st) formatter)
                                     (first_occurrences [] [e1; e2; e3])
    /\ (forall (e : cloudwatchlogs_FilteredLogEvent) (id : string),
          In e [e1; e2; e3] -> Timestamp e = lastSeenTime st' ->
          EventId e = Some id ->
          seen_in (seenEventIDs st') id = true
          /\ handleEvent formatter e st' = (Ret tt, st'))
    /\ (forall (again : poll),
          healthy [again] = true ->
          (failures (polls ++ [again]) < retryLimit)%Z ->
          (forall e, In e (events_of (fst again)) ->
                     In e [e1; e2; e3] /\ Timestamp e = lastSeenTime st') ->
          exists st'',
            follow_loop formatter cluster taskID (polls ++ [again]) st = (Waiting, st'')
            /\ stdout st'' = stdout st'
            /\ lastSeenTime st'' = lastSeenTime st'
            /\ seenEventIDs st'' = seenEventIDs st')
    /\ forall (s : state) (e : cloudwatchlogs_FilteredLogEvent) (t w : Z)
              (m : gmap string bool) (id : string),
         lastSeenTime s = Some w -> seenEventIDs s = Some m ->
         Timestamp e = Some t -> (t <= w)%Z -> EventId e = Some id ->
         is_Some (m !! id) ->
         handleEvent formatter e s = (Ret tt, s).
Proof.
  intros Hstart Hh Hlt Hd Ht1 Ht2 Ht3 Hle.
  pose proof (loop_start_wf st Hstart) as Hwf.
  destruct Hstart as (Hl & Hs & Hrc).
  destruct (follow_loop_waiting formatter cluster taskID polls st Hh Hwf)
    as (st' & E & T & _); [lia|].
  pose proof (healthy_delivered polls Hh) as Hes.
  assert (lastSeenTime st' = Some (Z.max t1 (Z.max t2 t3))) as Hmax.
  { change (lastSeenTime st') with (t_last (tail_of st')).
    rewrite T, absorb_all_last by done. rewrite Hd.
    rewrite (timestamps_cons _ _ _ Ht1), (timestamps_cons _ _ _ Ht2),
      (timestamps_cons _ _ _ Ht3).
    simpl. rewrite Hl. simpl. f_equal. lia. }
  assert (forall (e : cloudwatchlogs_FilteredLogEvent) (id : string),
            In e (delivered polls) -> Timestamp e = lastSeenTime st' ->
            EventId e = Some id -> seen_in (seenEventIDs st') id = true) as Hrec.
  { intros e id Hin Hts Hid.
    change (seenEventIDs st') with (t_seen (tail_of st')).
    change (lastSeenTime st') with (t_last (tail_of st')) in Hts.
    rewrite T in Hts |- *. by apply (absorb_all_records _ _ _ e id). }
  exists st'. split_and!; [done|done| | | |apply handleEvent_seen].
  - change (stdout st') with (t_out (tail_of st')). rewrite T, Hd.
    rewrite Hd in Hes. apply absorb_all_first_occurrences; [done| | |].
    + rewrite (timestamps_cons _ _ _ Ht1), (timestamps_cons _ _ _ Ht2),
        (timestamps_cons _ _ _ Ht3).
      cbn. rewrite andb_true_r. apply andb_true_intro. split; apply Z.leb_le; lia.
    + cbn. by rewrite Hl.
    + split_and!.
      * intros id. cbn. rewrite Hs. split; [done|]. intros Hin. inversion Hin.
      * intros t k Hin. inversion Hin.
      * intros k Hin. inversion Hin.
  - intros e id Hin Hts Hid. rewrite <- Hd in Hin.
    pose proof (Hrec e id Hin Hts Hid) as Hseen. split; [done|].
    destruct (seenEventIDs st') as [m|] eqn:Hm; [|done].
    rewrite Hmax in Hts.
    apply (handleEvent_seen formatter st' e _ _ m id Hmax Hm Hts); [lia|done|].
    unfold seen_in in Hseen. by destruct (m !! id).
  - intros again Hha Hlta Hagain.
    assert (healthy (polls ++ [again]) = true) as Hh'.
    { rewrite healthy_app, Hh. done. }
    destruct (follow_loop_waiting formatter cluster taskID (polls ++ [again]) st Hh' Hwf)
      as (st'' & E' & T' & _); [lia|].
    assert (tail_of st'' = tail_of st') as Heq.
    { rewrite T', delivered_app, absorb_all_app, <- T.
      apply absorb_all_again. intros e Hin.
      assert (In e (events_of (fst again))) as Hin'.
      { unfold delivered in Hin. cbn in Hin. by rewrite app_nil_r in Hin. }
      destruct (Hagain e Hin') as [Hdel Hts]. rewrite <- Hd in Hdel.
      split_and!.
      - apply healthy_cons in Hha as (Hw & _ & _).
        rewrite forallb_forall in Hw. by apply Hw.
      - done.
      - intros id Hid. by apply (Hrec e id). }
    exists st''. split; [done|].
    change (stdout st'' = stdout st'
            /\ lastSeenTime st'' = lastSeenTime st'
            /\ seenEventIDs st'' = seenEventIDs st')
      with (t_out (tail_of st'') = t_out (tail_of st')
            /\ t_last (tail_of st'') = t_last (tail_of st')
            /\ t_seen (tail_of st'') = t_seen (tail_of st')).
    by rewrite Heq.
Qed.

End RedeliveryFacts.

Section RedeliverySamples.
Import GoLib TaskDefinitionsRun Run Coverage.

Lemma watermark_monotone_dedup_witness :
  exists st',
    @follow_loop plain colorjson_NewFormatter "prod" "0f9de17a" two_polls (init true)
    = (Waiting, st')
    /\ lastSeenTime st' = Some 150
    /\ stdout st'
       = [@rendering plain true colorjson_NewFormatter (event "a" 100 "starting");
          @rendering plain true colorjson_NewFormatter (event "b" 150 info_message)]
    /\ seen_in (seenEventIDs st') "b" = true
    /\ exists st'',
         @follow_loop plain colorjson_NewFormatter "prod" "0f9de17a"
           (two_polls ++ [ok_poll [event "b" 150 info_message]]) (init true)
         = (Waiting, st'')
         /\ stdout st'' = stdout st'
         /\ lastSeenTime st'' = lastSeenTime st'
         /\ seenEventIDs st'' = seenEventIDs st'.
Proof.
  destruct (@watermark_monotone_dedup plain colorjson_NewFormatter "prod" "0f9de17a"
              two_polls (init true)
              (event "a" 100 "starting") (event "a" 100 "starting")
              (event "b" 150 info_message) 100 100 150
              (loop_start_init true) eq_refl eq_refl eq_refl eq_refl eq_refl eq_refl
              (conj (Z.le_refl 100) (Zle_bool_imp_le 100 150 eq_refl)))
    as (st' & E & W & Out & Rec & Again & _).
  exists st'. split_and!; [exact E|exact W|exact Out| |].
  - apply (Rec (event "b" 150 info_message) "b").
    + right. right. left. reflexivity.
    + rewrite W. reflexivity.
    + reflexivity.
  - apply (Again (ok_poll [event "b" 150 info_message])).
    + reflexivity.
    + reflexivity.
    + intros e [<-|[]]. split.
      * right. right. left. reflexivity.
      * rewrite W. reflexivity.
Defined.

End RedeliverySamples.

(** ** How the commands end *)

Section ExitFacts.
Import GoLib TaskDefinitionsRun Run Coverage.
Context `{Libraries}.

Local Ltac no_exit :=
  let E := fresh "E" in
  let Hc := fresh "Hc" in
  intros ? ? ? E ? Hc; unfold ret, modify, get, panic, waiting in E;
  injection E as <- <-; discriminate Hc.

Lemma exits_with_ret {A : Type} (errs : list string) (a : A) : exits_with errs (ret a).
Proof. no_exit. Qed.

Lemma exits_with_modify (errs : list string) (f : state -> state) :
  exits_with errs (modify f).
Proof. no_exit. Qed.

Lemma exits_with_get (errs : list string) : exits_with errs get.
Proof. no_exit. Qed.

Lemma exits_with_panic {A : Type} (errs : list string) : exits_with errs (@panic state A).
Proof. no_exit. Qed.

Lemma exits_with_waiting {A : Type} (errs : list string) :
  exits_with errs (@waiting state A).
Proof. no_exit. Qed.

Lemma exits_with_deref {A : Type} (errs : list string) (p : option A) :
  exits_with errs (deref p).
Proof. destruct p; [apply exits_with_ret|apply exits_with_panic]. Qed.

Lemma exits_with_bind {A B : Type} (errs : list string) (m : M state A)
      (k : A -> M state B) :
  exits_with errs m -> (forall a, exits_with errs (k a)) ->
  exits_with errs (bind m k).
Proof.
  intros Hm Hk s o s' E c Hc. unfold bind in E.
  destruct (m s) as [[a|c0| |] s1] eqn:Em.
  - exact (Hk a s1 o s' E c Hc).
  - injection E as <- <-. injection Hc as <-. exact (Hm s (Exited c0) s1 Em c0 eq_refl).
  - injection E as <- <-. discriminate Hc.
  - injection E as <- <-. discriminate Hc.
Qed.

Lemma exits_with_exit0 {A : Type} (errs : list string) :
  exits_with errs (@os_Exit state A 0).
Proof.
  intros s o s' E c Hc. unfold os_Exit in E. injection E as <- <-.
  injection Hc as <-. by left.
Qed.

Lemma exits_with_fatal {A : Type} (errs : list string) (e : string) :
  In e errs -> exits_with errs (Println e ;; @os_Exit state A 1)%cmd.
Proof.
  intros Hin s o s' E c Hc. unfold bind, Println, modify, os_Exit in E.
  injection E as <- <-. injection Hc as <-. right. split; [done|].
  exists e. split; [done|]. cbn. apply last_snoc.
Qed.

Lemma exits_with_mono {A : Type} (errs errs' : list string) (m : M state A) :
  (forall e, In e errs -> In e errs') -> exits_with errs m -> exits_with errs' m.
Proof.
  intros Hincl Hm s o s' E c Hc.
  destruct (Hm s o s' E c Hc) as [?|(? & msg & Hin & Hlast)]; [by left|right].
  split; [done|]. exists msg. split; [by apply Hincl|done].
Qed.

Lemma exits_with_for_range {A : Type} (errs : list string) (xs : list A)
      (body : A -> M state unit) :
  (forall x, exits_with errs (body x)) -> exits_with errs (for_range xs body).
Proof.
  intros Hbody. induction xs as [|x xs IH]; cbn [for_range].
  - apply exits_with_ret.
  - apply exits_with_bind; [apply Hbody|intros _; apply IH].
Qed.

Lemma exits_with_handlePage (errs : list string) (formatter : colorjson_Formatter)
      (page : cloudwatchlogs_FilterLogEventsOutput) (lastPage : bool) :
  exits_with errs (handlePage formatter page lastPage).
Proof.
  unfold handlePage. apply exits_with_bind; [|intros _; apply exits_with_ret].
  apply exits_with_for_range. intros e. unfold handleEvent.
  apply exits_with_bind.
  { unfold updateLastSeenTime. apply exits_with_bind; [apply exits_with_get|].
    intros st. destruct (lastSeenTime st).
    - apply exits_with_bind; [apply exits_with_deref|]. intros t.
      destruct (_ <? _)%Z; [|apply exits_with_ret].
      apply exits_with_bind; [apply exits_with_modify|intros _; apply exits_with_modify].
    - apply exits_with_bind; [apply exits_with_modify|intros _; apply exits_with_modify]. }
  intros _. apply exits_with_bind; [apply exits_with_deref|]. intros id.
  apply exits_with_bind; [apply exits_with_get|]. intros st.
  destruct (negb _); [|apply exits_with_ret].
  apply exits_with_bind.
  - unfold printEvent. apply exits_with_bind; [apply exits_with_get|]. intros st0.
    destruct (json_Unmarshal _); apply exits_with_modify.
  - intros _. unfold addSeenEventIDs.
    apply exits_with_bind; [apply exits_with_deref|]. intros i.
    apply exits_with_bind; [apply exits_with_get|]. intros st1.
    destruct (seenEventIDs st1); [apply exits_with_modify|apply exits_with_panic].
Qed.

Lemma exits_with_paginate (errs : list string)
      (pages : list cloudwatchlogs_FilterLogEventsOutput) (err : option string)
      (fn : cloudwatchlogs_FilterLogEventsOutput -> bool -> M state bool) :
  (forall p b, exits_with errs (fn p b)) -> exits_with errs (paginate pages err fn).
Proof.
  intros Hfn. induction pages as [|p ps IH]; cbn [paginate].
  - apply exits_with_ret.
  - apply exits_with_bind; [apply Hfn|]. intros [|]; [apply IH|apply exits_with_ret].
Qed.

Lemma exits_with_bind_post {A B : Type} (errs : list string) (P : A -> Prop)
      (m : M state A) (k : A -> M state B) :
  exits_with errs m -> (forall s a s', m s = (Ret a, s') -> P a) ->
  (forall a, P a -> exits_with errs (k a)) ->
  exits_with errs (bind m k).
Proof.
  intros Hm HP Hk s o s' E c Hc. unfold bind in E.
  destruct (m s) as [[a|c0| |] s1] eqn:Em.
  - exact (Hk a (HP s a s1 Em) s1 o s' E c Hc).
  - injection E as <- <-. injection Hc as <-. exact (Hm s (Exited c0) s1 Em c0 eq_refl).
  - injection E as <- <-. discriminate Hc.
  - injection E as <- <-. discriminate Hc.
Qed.

(** The paginator returns the error of the response, or none. *)
Lemma paginate_returns (pages : list cloudwatchlogs_FilterLogEventsOutput)
      (err : option string)
      (fn : cloudwatchlogs_FilterLogEventsOutput -> bool -> M state bool) :
  forall s r s', paginate pages err fn s = (Ret r, s') -> r = err \/ r = None.
Proof.
  induction pages as [|p ps IH]; intros s r s'; cbn [paginate].
  - intros [= <- <-]. by left.
  - unfold bind. destruct (fn p _ s) as [[[|]|c0| |] s1]; try done.
    + apply IH.
    + intros [= <- <-]. by right.
Qed.

Lemma exits_with_iteration (formatter : colorjson_Formatter) (cluster taskID : string)
      (p : poll) :
  exits_with (poll_errors [p]) (iteration formatter cluster taskID p).
Proof.
  unfold iteration, poll_errors. cbn [flat_map]. rewrite app_nil_r.
  apply exits_with_bind; [|intros _; apply exits_with_bind].
  - unfold log_query.
    apply (exits_with_bind_post _ (fun r => r = log_err (fst p) \/ r = None)).
    + unfold cwlI_FilterLogEventsPages.
      apply exits_with_bind; [apply exits_with_get|]. intros st.
      apply exits_with_bind; [apply exits_with_modify|]. intros _.
      apply exits_with_paginate. intros pg b. apply exits_with_handlePage.
    + intros s r s'. unfold cwlI_FilterLogEventsPages, bind, get, call, modify.
      apply paginate_returns.
    + intros err Herr. destruct err as [e|]; [|apply exits_with_ret].
      destruct Herr as [Herr|Herr]; [|done].
      apply exits_with_bind; [apply exits_with_modify|]. intros _.
      apply exits_with_bind; [apply exits_with_get|]. intros st.
      destruct (_ <=? _)%Z; [|apply exits_with_ret].
      apply exits_with_fatal. apply in_or_app. left. rewrite <- Herr. by left.
  - unfold advance_start. apply exits_with_bind; [apply exits_with_get|]. intros st.
    destruct (lastSeenTime st); [apply exits_with_modify|apply exits_with_ret].
  - intros _. unfold status_check.
    apply exits_with_bind; [apply exits_with_modify|]. intros _.
    destruct (snd p) as [[|task tasks]|e].
    + apply exits_with_panic.
    + destruct (String.eqb _ _); [apply exits_with_exit0|apply exits_with_ret].
    + apply exits_with_fatal. apply in_or_app. right. by left.
Qed.

Lemma poll_errors_cons (p : poll) (ps : list poll) :
  poll_errors (p :: ps) = poll_errors [p] ++ poll_errors ps.
Proof. unfold poll_errors. cbn [flat_map]. by rewrite app_nil_r. Qed.

Lemma exits_with_follow_loop (formatter : colorjson_Formatter) (cluster taskID : string)
      (polls : list poll) :
  exits_with (poll_errors polls) (follow_loop formatter cluster taskID polls).
Proof.
  induction polls as [|p ps IH]; cbn [follow_loop].
  - apply exits_with_waiting.
  - rewrite poll_errors_cons. apply exits_with_bind.
    + apply (exits_with_mono (poll_errors [p])); [|apply exits_with_iteration].
      intros e He. apply in_or_app. by left.
    + intros _. apply (exits_with_mono (poll_errors ps)); [|apply IH].
      intros e He. apply in_or_app. by right.
Qed.

Lemma exits_with_follow_setup (errs : list string) (td : option ecs_TaskDefinition)
      (tasks : list ecs_Task) :
  exits_with errs (follow_setup td tasks).
Proof.
  unfold follow_setup.
  apply exits_with_bind; [apply exits_with_deref|]. intros task0.
  apply exits_with_bind.
  { unfold derive_taskID. destruct (_ !! _); [apply exits_with_ret|apply exits_with_panic]. }
  intros taskID. apply exits_with_bind; [apply exits_with_deref|]. intros d.
  apply exits_with_bind; [apply exits_with_deref|]. intros c0.
  apply exits_with_bind; [apply exits_with_deref|]. intros lc.
  destruct (negb _); [apply exits_with_exit0|].
  apply exits_with_bind.
  { unfold Formatter. apply exits_with_bind; [|intros _; apply exits_with_ret].
    cbn. apply exits_with_ret. }
  intros f. apply exits_with_bind; [apply exits_with_modify|]. intros _.
  apply exits_with_ret.
Qed.

Lemma exits_with_run (fl : flags) (family : string) (sc : script) :
  exits_with (script_errors sc) (taskDefinitionsRunRun fl family sc).
Proof.
  unfold taskDefinitionsRunRun, script_errors.
  apply exits_with_bind; [apply exits_with_modify|]. intros _.
  destruct (describeTaskDefinition sc) as [td|err].
  - cbn [app]. apply exits_with_bind.
    { destruct (String.eqb _ _); [|apply exits_with_ret].
      apply exits_with_bind; [apply exits_with_deref|intros d; apply exits_with_ret]. }
    intros rev. apply exits_with_bind; [apply exits_with_modify|]. intros _.
    destruct (runTask sc) as [tasks|err].
    + cbn [app]. destruct tasks as [|task0 tasks].
      * apply exits_with_fatal. by left.
      * destruct (negb _); [apply exits_with_exit0|].
        unfold follow_task. apply exits_with_bind; [apply exits_with_follow_setup|].
        intros setup. apply (exits_with_mono (poll_errors (polls sc)));
          [|apply exits_with_follow_loop].
        intros e He. by right.
    + apply exits_with_fatal. by left.
  - apply exits_with_fatal. by left.
Qed.

(** A computation whose continuation never returns does not return. *)
Lemma bind_never_returns {A B : Type} (m : M state A) (k : A -> M state B) :
  (forall a s b s', k a s <> (Ret b, s')) ->
  forall s b s', bind m k s <> (Ret b, s').
Proof.
  intros Hk s b s'. unfold bind.
  destruct (m s) as [[a|c0| |] s1]; [apply Hk|done|done|done].
Qed.

(** The poll loop has no [return] and no [break]. *)
Lemma follow_loop_never_returns (formatter : colorjson_Formatter)
      (cluster taskID : string) (polls : list poll) :
  forall s b s', follow_loop formatter cluster taskID polls s <> (Ret b, s').
Proof.
  induction polls as [|p ps IH]; cbn [follow_loop].
  - intros s b s'. unfold waiting. done.
  - apply bind_never_returns. intros _. apply IH.
Qed.

(** Every path through the command ends in [os.Exit] or in the loop. *)
Lemma run_never_returns (fl : flags) (family : string) (sc : script) :
  forall s b s', taskDefinitionsRunRun fl family sc s <> (Ret b, s').
Proof.
  unfold taskDefinitionsRunRun. apply bind_never_returns. intros _.
  destruct (describeTaskDefinition sc) as [td|err].
  - apply bind_never_returns. intros rev. apply bind_never_returns. intros _.
    destruct (runTask sc) as [[|task0 tasks]|err].
    + apply bind_never_returns. intros _ s b s'. unfold os_Exit. done.
    + destruct (negb _).
      * intros s b s'. unfold os_Exit. done.
      * unfold follow_task. apply bind_never_returns. intros setup.
        apply follow_loop_never_returns.
    + apply bind_never_returns. intros _ s b s'. unfold os_Exit. done.
  - apply bind_never_returns. intros _ s b s'. unfold os_Exit. done.
Qed.

(** X13.  Whatever the flags and whatever the services answer, a run
    of the command never returns normally.  It is still polling when
    the answers are used up, or it ends in a run-time panic, or it
    calls [os.Exit] with code 0, or it calls [os.Exit] with code 1
    after printing, as its last line, an error message of one of the
    services' answers or [task failed to run].  [os.Exit] is called
    with no other code; the panics are a way of ending of their own. *)
Theorem task_run_outcomes (fl : flags) (family : string) (sc : script) (st : state) :
  exists (o : outcome unit) (st' : state),
    taskDefinitionsRunRun fl family sc st = (o, st')
    /\ (o = Waiting
        \/ o = Panicked
        \/ o = Exited 0
        \/ (o = Exited 1
            /\ exists msg, In msg (script_errors sc)
                           /\ last (stdout st') = Some msg)).
Proof.
  destruct (taskDefinitionsRunRun fl family sc st) as [o st'] eqn:E.
  exists o, st'. split; [done|].
  destruct o as [[]|c| |].
  - by destruct (run_never_returns fl family sc st tt st').
  - destruct (exits_with_run fl family sc st (Exited c) st' E c eq_refl)
      as [->|(-> & Hmsg)]; [by right; right; left|by right; right; right].
  - by right; left.
  - by left.
Qed.

End ExitFacts.

Section ListingExitFacts.
Import GoLib ClustersList.

(** X14.  Whatever the service answers, the cluster listing returns,
    still waits for an answer, or exits with code 1 after printing the
    error of a request as its last line; it never panics, never exits
    with another code, returns only after a response without
    continuation token, and sends no more requests than it has
    answers. *)
Theorem clusters_list_outcomes (script : list response) :
  (fst (clustersListRun script init) = Ret tt
   /\ (exists arns, In (final arns) script)
   \/ fst (clustersListRun script init) = Waiting
   \/ fst (clustersListRun script init) = Exited 1
      /\ exists err, In (ListErr err) script
                     /\ last (stdout (snd (clustersListRun script init))) = Some err)
  /\ (length (requests (snd (clustersListRun script init))) <= length script)%nat.
Proof.
  unfold clustersListRun.
  destruct (script_shape script)
    as [(pre & arns & rest & ->)|[(pre & err & rest & ->)|(pre & ->)]];
    destruct (list_loop_pages pre {| in_NextToken := None |} None init)
      as (H1 & H2 & H3).
  - rewrite H1. cbn [fst snd requests init app]. split.
    + left. split; [done|]. exists arns. apply in_or_app. right. by left.
    + rewrite length_app. cbn [length]. rewrite !length_map. lia.
  - rewrite H2. cbn [fst snd requests stdout init app]. split.
    + right; right. split; [done|]. exists err. split.
      * apply in_or_app. right. by left.
      * apply last_snoc.
    + rewrite length_app. cbn [length]. rewrite !length_map. lia.
  - rewrite H3. cbn [fst snd requests init app]. split.
    + right; left. done.
    + rewrite length_take, length_map. lia.
Qed.

End ListingExitFacts.

(** ** The further properties on sample runs *)

Section CoverageSamples.
Import GoLib TaskDefinitionsRun Run Coverage.

Lemma submission_fails_fast_witness :
  @taskDefinitionsRunRun plain follow_flags "api" run_error_script (init true)
  = (Exited 1,
     set_stdout ["ClusterNotFoundException"]
       (set_calls [CallDescribeTaskDefinition "api"; CallRunTask "prod" "api:3" "ecsctl"]
                  (init true))).
Proof.
  exact (proj1 (proj2 (@submission_fails_fast plain follow_flags "api" run_error_script
                         (init true)))
               (web_definition "awslogs") "ClusterNotFoundException" eq_refl eq_refl).
Defined.

Lemma run_without_follow_witness :
  @taskDefinitionsRunRun plain submit_flags "api" (web_script "awslogs" two_polls)
                         (init true)
  = (Exited 0,
     set_calls [CallDescribeTaskDefinition "api"; CallRunTask "prod" "api:7" "ecsctl"]
               (init true)).
Proof.
  exact (@run_without_follow plain submit_flags "api" (web_script "awslogs" two_polls)
           (web_definition "awslogs") short_arn_task [] (init true)
           eq_refl eq_refl eq_refl).
Defined.

Lemma task_id_is_second_piece_witness :
  exists pre id rest,
    long_arn = pre +:+ "/" +:+ id +:+ rest
    /\ count_byte "/" pre = 0%nat /\ count_byte "/" id = 0%nat
    /\ (rest = "" \/ exists r, rest = "/" +:+ r)
    /\ derive_taskID (Some long_arn) (init true) = (Ret id, init true).
Proof.
  apply (task_id_is_second_piece long_arn (init true)). cbn. lia.
Defined.

Lemma other_log_driver_exits_witness :
  @taskDefinitionsRunRun plain follow_flags "api" (web_script "json-file" two_polls)
                         (init true)
  = (Exited 0,
     set_calls [CallDescribeTaskDefinition "api"; CallRunTask "prod" "api:3" "ecsctl"]
               (init true)).
Proof.
  apply (@other_log_driver_exits plain follow_flags "api" (web_script "json-file" two_polls)
           (web_definition "json-file") short_arn_task [] (web_container "json-file") []
           {| LogDriver := Some "json-file";
              Options := {[ "awslogs-stream-prefix" := "ecs";
                            "awslogs-group" := "/ecs/api" ]} |} (init true)).
  - reflexivity.
  - reflexivity.
  - reflexivity.
  - cbn. lia.
  - reflexivity.
  - reflexivity.
  - discriminate.
Defined.

Lemma follow_enters_loop_witness :
  let entry :=
    set_cwInput {| LogGroupName := Some "/ecs/api";
                   LogStreamNames := ["ecs/web/0f9de17a"];
                   StartTime := None |}
      (set_calls [CallDescribeTaskDefinition "api"; CallRunTask "prod" "api:3" "ecsctl"]
                 (init true)) in
  @taskDefinitionsRunRun plain follow_flags "api" (web_script "awslogs" two_polls)
                         (init true)
  = @follow_loop plain colorjson_NewFormatter "prod" "0f9de17a" two_polls entry
  /\ loop_start entry.
Proof.
  intros entry.
  destruct (@follow_enters_loop plain follow_flags "api" (web_script "awslogs" two_polls)
              (web_definition "awslogs") short_arn_task [] (web_container "awslogs") []
              {| LogDriver := Some "awslogs";
                 Options := {[ "awslogs-stream-prefix" := "ecs";
                               "awslogs-group" := "/ecs/api" ]} |} "0f9de17a" true
              eq_refl eq_refl eq_refl eq_refl eq_refl eq_refl eq_refl) as [E _].
  split; [|apply loop_start_init].
  rewrite E. vm_compute. reflexivity.
Defined.

Lemma stopped_task_exits_witness :
  exists st',
    @follow_loop plain colorjson_NewFormatter "prod" "0f9de17a"
      (two_polls ++ (partial_response, status "STOPPED") :: fifty_failures) (init true)
    = (Exited 0, st')
    /\ tail_of st'
       = @absorb_all plain true colorjson_NewFormatter (tail_of (init true))
           (delivered two_polls ++ events_of partial_response).
Proof.
  apply (@stopped_task_exits plain colorjson_NewFormatter "prod" "0f9de17a" two_polls
           partial_response {| TaskArn := None; LastStatus := Some "STOPPED" |} []
           fifty_failures (init true)).
  - apply loop_start_init.
  - reflexivity.
  - reflexivity.
  - reflexivity.
  - reflexivity.
Defined.

Lemma status_without_task_panics_witness :
  exists st',
    @follow_loop plain colorjson_NewFormatter "prod" "0f9de17a"
      (two_polls ++ (partial_response, DescribeTasksOk []) :: fifty_failures) (init true)
    = (Panicked, st')
    /\ tail_of st'
       = @absorb_all plain true colorjson_NewFormatter (tail_of (init true))
           (delivered two_polls ++ events_of partial_response).
Proof.
  apply (@status_without_task_panics plain colorjson_NewFormatter "prod" "0f9de17a"
           two_polls partial_response fifty_failures (init true)).
  - apply loop_start_init.
  - reflexivity.
  - reflexivity.
  - reflexivity.
Defined.

Lemma queries_start_at_watermark_witness :
  exists st',
    @follow_loop plain colorjson_NewFormatter "prod" "0f9de17a" two_polls (init true)
    = (Waiting, st')
    /\ length (calls st') = (length (calls (init true)) + 2 * length two_polls)%nat
    /\ forall k, (k < length two_polls)%nat ->
         calls st' !! (length (calls (init true)) + 2 * k)%nat
         = Some (CallFilterLogEventsPages
                   (with_start (max_from None (timestamps (delivered (take k two_polls))))
                               (cwInput (init true))))
         /\ calls st' !! (length (calls (init true)) + (2 * k + 1))%nat
            = Some (CallDescribeTasks "prod" ["0f9de17a"]).
Proof.
  apply (@queries_start_at_watermark plain colorjson_NewFormatter "prod" "0f9de17a"
           (cwInput (init true)) two_polls (init true)).
  - apply loop_start_init.
  - reflexivity.
  - reflexivity.
  - reflexivity.
Defined.

Lemma watermark_is_maximum_witness :
  exists st',
    @follow_loop plain colorjson_NewFormatter "prod" "0f9de17a" out_of_order seen_a_at_100
    = (Waiting, st')
    /\ lastSeenTime st'
       = max_from (lastSeenTime seen_a_at_100) (timestamps (delivered out_of_order))
    /\ (forall w, lastSeenTime seen_a_at_100 = Some w ->
                  exists w', lastSeenTime st' = Some w' /\ (w <= w')%Z)
    /\ (forall t, In t (timestamps (delivered out_of_order)) ->
                  exists w', lastSeenTime st' = Some w' /\ (t <= w')%Z).
Proof.
  apply (@watermark_is_maximum plain colorjson_NewFormatter "prod" "0f9de17a"
           out_of_order seen_a_at_100).
  - reflexivity.
  - intros _. discriminate.
  - reflexivity.
Defined.

Lemma ordered_events_printed_once_witness :
  exists st',
    @follow_loop plain colorjson_NewFormatter "prod" "0f9de17a" two_polls (init true)
    = (Waiting, st')
    /\ stdout st' = stdout (init true)
                    ++ map (@rendering plain (color_NoColor (init true)) colorjson_NewFormatter)
                           (first_occurrences [] (delivered two_polls))
    /\ NoDup (map key (first_occurrences [] (delivered two_polls)))
    /\ (forall e, e ∈ delivered two_polls ->
                  key e ∈ map key (first_occurrences [] (delivered two_polls))).
Proof.
  apply (@ordered_events_printed_once plain colorjson_NewFormatter "prod" "0f9de17a"
           two_polls (init true)).
  - apply loop_start_init.
  - reflexivity.
  - reflexivity.
  - reflexivity.
Defined.

Lemma printed_lines_are_delivered_witness :
  exists st' printed,
    @follow_loop plain colorjson_NewFormatter "prod" "0f9de17a" out_of_order (init true)
    = (Waiting, st')
    /\ sublist printed (delivered out_of_order)
    /\ stdout st' = stdout (init true)
                    ++ map (@rendering plain (color_NoColor (init true))
                                       colorjson_NewFormatter) printed.
Proof.
  apply (@printed_lines_are_delivered plain colorjson_NewFormatter "prod" "0f9de17a"
           out_of_order (init true)).
  - reflexivity.
  - intros Hl. exfalso. apply Hl. reflexivity.
  - reflexivity.
Defined.

Lemma handleEvent_panics_on_nil_fields_witness :
  fst (@handleEvent plain colorjson_NewFormatter (anonymous 150 "late") seen_a_at_100)
  = Panicked.
Proof.
  apply (proj1 (@handleEvent_panics_on_nil_fields plain colorjson_NewFormatter
                  (anonymous 150 "late") seen_a_at_100 ltac:(intros _; discriminate))).
  left. reflexivity.
Defined.

Lemma events_without_timestamp_all_printed_witness :
  exists st',
    for_range [undated "a" "starting"; undated "a" "starting"]
              (@handleEvent plain colorjson_NewFormatter) (init true)
    = (Ret tt, st')
    /\ stdout st' = stdout (init true)
                    ++ map (@rendering plain (color_NoColor (init true))
                                       colorjson_NewFormatter)
                           [undated "a" "starting"; undated "a" "starting"]
    /\ lastSeenTime st' = None
    /\ color_NoColor st' = color_NoColor (init true).
Proof.
  apply (@events_without_timestamp_all_printed plain colorjson_NewFormatter
           [undated "a" "starting"; undated "a" "starting"] (init true)).
  - reflexivity.
  - repeat constructor; discriminate.
Defined.

End CoverageSamples.
